(** * mpdsub: request authentication and server lifecycle (server.go)

    A shallow embedding of [server.go] of the mpdsub Subsonic facade:
    the credential parser ([parseRequestContext], [decodePassword]), the
    authenticator ([authenticate]), the HTTP gate ([ServeHTTP]) and the
    keepalive loop ([keepalive]).

    Go strings are byte sequences; they are modelled by [string], whose
    characters ([ascii]) are exactly the 256 byte values.  The Go standard
    library functions the file calls ([encoding/hex], [crypto/md5],
    [net/url.Values.Get], [strings.HasPrefix], [strings.TrimPrefix]) are
    modelled in the modules [hex], [md5], [url] and [strings] below, under
    the names they have in Go. *)

From Stdlib Require Import ZArith NArith Ascii String List Bool Lia.
From stdpp Require Import base strings gmap list.
Import ListNotations.

Local Open Scope string_scope.
Local Open Scope Z_scope.

(** ** Bytes *)

Definition byte_val (a : ascii) : Z := Z.of_N (N_of_ascii a).
Definition byte_of (z : Z) : ascii := ascii_of_N (Z.to_N (Z.land z 255)).

Definition bytes_of_string (s : string) : list Z :=
  map byte_val (list_ascii_of_string s).
Definition string_of_bytes (l : list Z) : string :=
  string_of_list_ascii (map byte_of l).

(** ** [strings.HasPrefix] and [strings.TrimPrefix] *)

Module strings.

Fixpoint HasPrefix (s prefix : string) : bool :=
    match prefix, s with
    | EmptyString, _ => true
    | String c p', String d s' => Ascii.eqb c d && HasPrefix s' p'
    | String _ _, EmptyString => false
    end.

Fixpoint drop (n : nat) (s : string) : string :=
    match n, s with
    | O, _ => s
    | S n', String _ s' => drop n' s'
    | S _, EmptyString => EmptyString
    end.

  (** [TrimPrefix] returns [s] without the leading [prefix]; when [s] does
      not start with [prefix], [s] is returned unchanged. *)
Definition TrimPrefix (s prefix : string) : string :=
    if HasPrefix s prefix then drop (String.length prefix) s else s.

End strings.

(** ** [encoding/hex] *)

Module hex.

  (** [const hextable = "0123456789abcdef"] *)
Definition hextable : string := "0123456789abcdef".

Definition hexdigit (n : Z) : ascii :=
    match String.get (Z.to_nat n) hextable with
    | Some c => c
    | None => "0"%char
    end.

  (** [EncodeToString]: every byte [v] gives [hextable[v>>4]] and
      [hextable[v&0x0f]]. *)
Fixpoint EncodeToString (src : list Z) : string :=
    match src with
    | [] => EmptyString
    | v :: rest =>
        String (hexdigit (Z.shiftr v 4))
          (String (hexdigit (Z.land v 15)) (EncodeToString rest))
    end.

Inductive error : Type :=
  | InvalidByteError (b : ascii)
  | ErrLength.

  (** [fromHexChar] accepts [0-9], [a-f] and [A-F]. *)
Definition fromHexChar (c : ascii) : option Z :=
    let v := byte_val c in
    if (48 <=? v) && (v <=? 57) then Some (v - 48)
    else if (97 <=? v) && (v <=? 102) then Some (v - 97 + 10)
    else if (65 <=? v) && (v <=? 70) then Some (v - 65 + 10)
    else None.

  (** [DecodeString] converts pairs of hexadecimal characters to bytes.
      As the Go documentation says: "If the input is malformed,
      DecodeString returns the bytes decoded before the error."  The
      first component is the returned byte slice, the second the error
      ([None] is Go's [nil]). *)
Fixpoint DecodeString (s : string) : string * option error :=
    match s with
    | EmptyString => (EmptyString, None)
    | String p EmptyString =>
        match fromHexChar p with
        | None => (EmptyString, Some (InvalidByteError p))
        | Some _ => (EmptyString, Some ErrLength)
        end
    | String p (String q rest) =>
        match fromHexChar p with
        | None => (EmptyString, Some (InvalidByteError p))
        | Some a =>
            match fromHexChar q with
            | None => (EmptyString, Some (InvalidByteError q))
            | Some b =>
                let '(out, e) := DecodeString rest in
                (String (byte_of (Z.lor (Z.shiftl a 4) b)) out, e)
            end
        end
    end.

  (** A string is valid hexadecimal when decoding it reports no error. *)
Definition valid (s : string) : Prop := snd (DecodeString s) = None.

End hex.

(** ** [crypto/md5]  (RFC 1321) *)

Module md5.

Definition mask32 : Z := 0xffffffff.
Definition add32 (a b : Z) : Z := Z.land (a + b) mask32.
Definition not32 (a : Z) : Z := Z.lxor a mask32.
Definition rotl32 (x : Z) (c : Z) : Z :=
    Z.land (Z.lor (Z.shiftl x c) (Z.shiftr x (32 - c))) mask32.

Definition shifts : list Z :=
    [7; 12; 17; 22; 7; 12; 17; 22; 7; 12; 17; 22; 7; 12; 17; 22;
     5; 9; 14; 20; 5; 9; 14; 20; 5; 9; 14; 20; 5; 9; 14; 20;
     4; 11; 16; 23; 4; 11; 16; 23; 4; 11; 16; 23; 4; 11; 16; 23;
     6; 10; 15; 21; 6; 10; 15; 21; 6; 10; 15; 21; 6; 10; 15; 21].

Definition table : list Z :=
    [0xd76aa478; 0xe8c7b756; 0x242070db; 0xc1bdceee;
     0xf57c0faf; 0x4787c62a; 0xa8304613; 0xfd469501;
     0x698098d8; 0x8b44f7af; 0xffff5bb1; 0x895cd7be;
     0x6b901122; 0xfd987193; 0xa679438e; 0x49b40821;
     0xf61e2562; 0xc040b340; 0x265e5a51; 0xe9b6c7aa;
     0xd62f105d; 0x02441453; 0xd8a1e681; 0xe7d3fbc8;
     0x21e1cde6; 0xc33707d6; 0xf4d50d87; 0x455a14ed;
     0xa9e3e905; 0xfcefa3f8; 0x676f02d9; 0x8d2a4c8a;
     0xfffa3942; 0x8771f681; 0x6d9d6122; 0xfde5380c;
     0xa4beea44; 0x4bdecfa9; 0xf6bb4b60; 0xbebfbc70;
     0x289b7ec6; 0xeaa127fa; 0xd4ef3085; 0x04881d05;
     0xd9d4d039; 0xe6db99e5; 0x1fa27cf8; 0xc4ac5665;
     0xf4292244; 0x432aff97; 0xab9423a7; 0xfc93a039;
     0x655b59c3; 0x8f0ccc92; 0xffeff47d; 0x85845dd1;
     0x6fa87e4f; 0xfe2ce6e0; 0xa3014314; 0x4e0811a1;
     0xf7537e82; 0xbd3af235; 0x2ad7d2bb; 0xeb86d391].

Record digest : Type := Digest { sa : Z; sb : Z; sc : Z; sd : Z }.

  (** [d.Reset()] *)
Definition init : digest :=
    Digest 0x67452301 0xefcdab89 0x98badcfe 0x10325476.

Definition le32 (b0 b1 b2 b3 : Z) : Z :=
    Z.lor b0 (Z.lor (Z.shiftl b1 8) (Z.lor (Z.shiftl b2 16) (Z.shiftl b3 24))).

Fixpoint words (l : list Z) : list Z :=
    match l with
    | b0 :: b1 :: b2 :: b3 :: rest => le32 b0 b1 b2 b3 :: words rest
    | _ => []
    end.

Definition step (M : list Z) (st : digest) (i : nat) : digest :=
    let '(Digest a b c d) := st in
    let iz := Z.of_nat i in
    let '(f, g) :=
      if iz <? 16 then
        (Z.lor (Z.land b c) (Z.land (not32 b) d), iz)
      else if iz <? 32 then
        (Z.lor (Z.land d b) (Z.land (not32 d) c), (5 * iz + 1) mod 16)
      else if iz <? 48 then
        (Z.lxor b (Z.lxor c d), (3 * iz + 5) mod 16)
      else
        (Z.lxor c (Z.lor b (not32 d)), (7 * iz) mod 16) in
    let f' := add32 (add32 (add32 f a) (nth i table 0)) (nth (Z.to_nat g) M 0) in
    Digest d (add32 b (rotl32 f' (nth i shifts 0))) b c.

  (** One 64-byte block. *)
Definition block (st : digest) (p : list Z) : digest :=
    let M := words p in
    let '(Digest a b c d) := fold_left (step M) (seq 0 64) st in
    Digest (add32 (sa st) a) (add32 (sb st) b) (add32 (sc st) c) (add32 (sd st) d).

Fixpoint blocks (n : nat) (st : digest) (l : list Z) : digest :=
    match n with
    | O => st
    | S n' => blocks n' (block st (firstn 64 l)) (skipn 64 l)
    end.

Definition le_bytes (n : nat) (x : Z) : list Z :=
    map (fun k => Z.land (Z.shiftr x (8 * Z.of_nat k)) 255) (seq 0 n).

  (** Padding: one [0x80] byte, zeros up to 56 mod 64, then the length in
      bits as 64 bits, little-endian. *)
Definition pad (msg : list Z) : list Z :=
    let len := Z.of_nat (List.length msg) in
    msg ++ [0x80] ++ repeat 0 (Z.to_nat ((55 - len) mod 64))
        ++ le_bytes 8 (Z.land (Z.shiftl len 3) 0xffffffffffffffff).

  (** [h := md5.New(); io.WriteString(h, s); h.Sum(nil)]: the 16 bytes of
      the checksum of [s]. *)
Definition Sum (s : string) : list Z :=
    let p := pad (bytes_of_string s) in
    let '(Digest a b c d) := blocks (List.length p / 64)%nat init p in
    le_bytes 4 a ++ le_bytes 4 b ++ le_bytes 4 c ++ le_bytes 4 d.

End md5.

(** ** [net/url] *)

Module url.

  (** [type Values map[string][]string] *)
Abbreviation Values := (gmap string (list string)).

  (** [Get] gets the first value associated with the given key; if there
      are no values associated with the key, it returns the empty
      string. *)
Definition Get (v : Values) (key : string) : string :=
    match v !! key with
    | Some (x :: _) => x
    | _ => ""
    end.

  (** The parts of [url.URL] the server looks at.  [Query] is what the
      method [URL.Query()] returns: the parameters parsed from the query
      string of the request's URL. *)
Record URL : Type := { Path : string; Query : Values }.

End url.

(** ** [net/http] *)

Module http.

Abbreviation Header := (gmap string (list string)).

Definition MethodGet : string := "GET".
Definition MethodPost : string := "POST".
Definition StatusOK : Z := 200.
Definition StatusMethodNotAllowed : Z := 405.

  (** An inbound request.  [Body] is the request body as the client sent
      it (for a POST with a form, the encoded form). *)
Record Request : Type := {
    Method : string;
    URL : url.URL;
    RemoteAddr : string;
    Body : string
  }.

  (** What a handler writes into the body. *)
Inductive chunk (X : Type) : Type :=
  | Text (s : string)
  | Encoded (x : X).
Arguments Text {X} s.
Arguments Encoded {X} x.

  (** The state of a [ResponseWriter].  [header] is the map returned by
      [w.Header()]; [wroteHeader], [status] and [sent] record the call of
      [WriteHeader]: the status code and the headers that go on the wire
      (changes to [header] after that call do not reach the peer);
      [body] is what has been written. *)
Record ResponseWriter (X : Type) : Type := {
    header : Header;
    wroteHeader : bool;
    status : Z;
    sent : Header;
    body : list (chunk X)
  }.
Arguments header {X} _.
Arguments wroteHeader {X} _.
Arguments status {X} _.
Arguments sent {X} _.
Arguments body {X} _.

Section Writer.
Context {X : Type}.

    (** The writer a handler receives for a new request. *)
Definition fresh : ResponseWriter X :=
      {| header := ∅; wroteHeader := false; status := 0; sent := ∅; body := [] |}.

    (** [w.Header().Set(key, value)] *)
Definition Header_Set (key value : string) (w : ResponseWriter X) : ResponseWriter X :=
      {| header := <[key := [value]]> (header w); wroteHeader := wroteHeader w;
         status := status w; sent := sent w; body := body w |}.

    (** [w.Header().Del(key)] *)
Definition Header_Del (key : string) (w : ResponseWriter X) : ResponseWriter X :=
      {| header := delete key (header w); wroteHeader := wroteHeader w;
         status := status w; sent := sent w; body := body w |}.

    (** [w.WriteHeader(code)]: only the first call counts. *)
Definition WriteHeader (code : Z) (w : ResponseWriter X) : ResponseWriter X :=
      if wroteHeader w then w
      else {| header := header w; wroteHeader := true; status := code;
              sent := header w; body := body w |}.

    (** [w.Write(b)]: "If WriteHeader has not yet been called, Write calls
        WriteHeader(http.StatusOK) before writing the data." *)
Definition Write (c : chunk X) (w : ResponseWriter X) : ResponseWriter X :=
      let w' := WriteHeader StatusOK w in
      {| header := header w'; wroteHeader := wroteHeader w'; status := status w';
         sent := sent w'; body := body w' ++ [c] |}.

    (** [http.Error(w, error, code)] replies with the given plain text
        message and status code. *)
Definition Error (error : string) (code : Z) (w : ResponseWriter X) : ResponseWriter X :=
      let w1 := Header_Del "Content-Length" w in
      let w2 := Header_Set "Content-Type" "text/plain; charset=utf-8" w1 in
      let w3 := Header_Set "X-Content-Type-Options" "nosniff" w2 in
      let w4 := WriteHeader code w3 in
      Write (Text (error ++ String (ascii_of_nat 10) "")) w4.

End Writer.

End http.

(** ** The server *)

(** [type Config struct]; [Keepalive] is a [time.Duration], a number of
    nanoseconds.  The [Logger] is the sink of the log entries recorded in
    the traces below. *)
Record Config : Type := {
  SubsonicUser : string;
  SubsonicPassword : string;
  MusicDirectory : string;
  Verbose : bool;
  Keepalive : Z
}.

(** [type authMethod int] *)
Definition authMethod : Type := Z.
Definition authMethodPassword : authMethod := 0.
Definition authMethodTokenSalt : authMethod := 1.

(** [type requestContext struct] *)
Record requestContext : Type := {
  User : string;
  Password : string;
  Token : string;
  Salt : string;
  Client : string;
  Version : string;
  authMethod_ : authMethod
}.

(** [decodePassword] decodes a password, if necessary, from its encoded hex
    format.  If the password is not encoded, the input string is
    returned. *)
Definition prefix : string := "enc:".

Definition decodePassword (p : string) : string :=
  if negb (strings.HasPrefix p prefix) then p
  else
    let '(b, _) := hex.DecodeString (strings.TrimPrefix p prefix) in
    b.

(** [parseRequestContext] parses parameters from a HTTP request into a
    requestContext.  Go's result [(nil, false)] is [None] and
    [(&requestContext{...}, true)] is [Some]: the function returns no
    other combination. *)
Definition parseRequestContext (r : http.Request) : option requestContext :=
  let q := url.Query (http.URL r) in
  let user := url.Get q "u" in
  if String.eqb user "" then None else
  let client := url.Get q "c" in
  if String.eqb client "" then None else
  let version := url.Get q "v" in
  if String.eqb version "" then None else
  let pass := decodePassword (url.Get q "p") in
  if negb (String.eqb pass "") then
    Some {| User := user; Password := pass; Token := ""; Salt := "";
            Client := client; Version := version;
            authMethod_ := authMethodPassword |}
  else
  let token := url.Get q "t" in
  if String.eqb token "" then None else
  let salt := url.Get q "s" in
  if String.eqb salt "" then None else
  Some {| User := user; Password := ""; Token := token; Salt := salt;
          Client := client; Version := version;
          authMethod_ := authMethodTokenSalt |}.


(** Modelled from the spec: the response values [errMissingParameter] and
    [errUnauthorized] are declared outside [server.go].  The spec names
    them as the two error codes the core needs, "missing parameter" and
    "unauthorized"; a [container] is the value [writeXML] serialises. *)
Inductive container : Type :=
| errMissingParameter
| errUnauthorized.

Abbreviation Writer := (http.ResponseWriter container).

(** Modelled from the spec: [writeXML] is defined outside [server.go].  By
    the spec it answers "with HTTP success status" and "a body encoding
    the domain-specific error": it writes the encoded container to [w]
    without choosing a status itself, so the first write fixes status
    200. *)
Definition writeXML (c : container) (w : Writer) : Writer :=
  http.Write (http.Encoded c) w.

(** [type Server struct].  [db] gives the result of each successive call of
    [s.db.Ping()] ([None] is a nil error, [Some e] the error [e]); [mux] is
    the route table, whose handlers live outside [server.go]: a handler
    takes the request and the writer as [ServeHTTP] passes them on. *)
Record Server : Type := {
  db : nat -> option string;
  cfg : Config;
  mux : http.Request -> Writer -> Writer
}.

(** [authenticate] attempts to authenticate a user using the input
    requestContext. *)
Definition authenticate (s : Server) (rctx : requestContext) : bool :=
  if negb (String.eqb (User rctx) (SubsonicUser (cfg s))) then false
  else if authMethod_ rctx =? authMethodPassword then
    String.eqb (Password rctx) (SubsonicPassword (cfg s))
  else if authMethod_ rctx =? authMethodTokenSalt then
    String.eqb (Token rctx)
      (hex.EncodeToString (md5.Sum (SubsonicPassword (cfg s) ++ Salt rctx)))
  else false.

(** ** Effects: the response writer and a trace of calls *)

Inductive arg : Type :=
| Str (s : string)
| Url (u : url.URL)      (* [u.String()] *)
| Err (e : string).      (* an [error] value *)

Inductive selected : Type :=
| ctxDone                (* [case <-ctx.Done():] *)
| tickC.                 (* [case <-tick.C:] *)

(** The calls a method of the server makes, in the order it makes them. *)
Inductive event : Type :=
| Logf (format : string) (args : list arg)
| Call_parseRequestContext (r : http.Request)
| Call_authenticate (rctx : requestContext)
| Call_mux (r : http.Request)
| Ping (res : option string)
| Recv (c : selected)
| WgDone.

Record world : Type := { w : Writer; trace : list event }.

Definition M (A : Type) : Type := world -> A * world.

#[local] Instance M_ret : MRet M := fun A (a : A) st => (a, st).
#[local] Instance M_bind : MBind M :=
  fun A B (k : A -> M B) (m : M A) st => let '(a, st') := m st in k a st'.

Definition emit (e : event) : M unit :=
  fun st => (tt, {| w := w st; trace := trace st ++ [e] |}).

Definition on_writer (f : Writer -> Writer) : M unit :=
  fun st => (tt, {| w := f (w st); trace := trace st |}).

(** [s.logf] *)
Definition logf (format : string) (args : list arg) : M unit :=
  emit (Logf format args).

Definition call_parseRequestContext (r : http.Request) : M (option requestContext) :=
  emit (Call_parseRequestContext r) ;; mret (parseRequestContext r).

Definition call_authenticate (s : Server) (rctx : requestContext) : M bool :=
  emit (Call_authenticate rctx) ;; mret (authenticate s rctx).

(** [s.mux.ServeHTTP(w, r)] *)
Definition mux_ServeHTTP (s : Server) (r : http.Request) : M unit :=
  emit (Call_mux r) ;; on_writer (mux s r).

(** [ServeHTTP] implements [http.Handler]. *)
Definition ServeHTTP (s : Server) (r : http.Request) : M unit :=
  (if Verbose (cfg s)
   then logf "%s -> %s %s"
          [Str (http.RemoteAddr r); Str (http.Method r); Url (http.URL r)]
   else mret tt) ;;
  if negb (String.eqb (http.Method r) http.MethodGet)
     && negb (String.eqb (http.Method r) http.MethodPost)
  then
    on_writer (http.Error "method not allowed" http.StatusMethodNotAllowed)
  else
    on_writer (http.Header_Set "Connection" "close") ;;
    res ← call_parseRequestContext r;
    match res with
    | None =>
        (* Subsonic API returns HTTP 200 on missing parameters *)
        on_writer (writeXML errMissingParameter)
    | Some rctx =>
        ok ← call_authenticate s rctx;
        if negb ok then
          (* Subsonic API returns HTTP 200 on invalid authentication *)
          on_writer (writeXML errUnauthorized)
        else
          mux_ServeHTTP s r
    end.

(** Running the handler on a writer. *)
Definition serve (s : Server) (r : http.Request) (w0 : Writer) : world :=
  snd (ServeHTTP s r {| w := w0; trace := [] |}).

(** ** The keepalive loop *)

(** [keepalive] sends keepalive messages to the database at regular
    intervals.  [sched] lists what the successive [select] statements
    receive: a tick of the ticker or the cancellation of [ctx]; [n] is
    the number of pings sent so far.  The result is the trace of the
    task and whether it has returned: with [sched] used up the task is
    blocked in [select].  The deferred [s.wg.Done()] runs on return. *)
Fixpoint keepalive_from (s : Server) (n : nat) (sched : list selected)
  : list event * bool :=
  let err := db s n in
  let iter :=
    Ping err ::
    match err with
    | Some e => [Logf "failed to send keepalive message: %v" [Err e]]
    | None => []
    end in
  match sched with
  | [] => (iter, false)
  | ctxDone :: _ => ((iter ++ [Recv ctxDone; WgDone])%list, true)
  | tickC :: rest =>
      let '(tr, returned) := keepalive_from s (S n) rest in
      ((iter ++ Recv tickC :: tr)%list, returned)
  end.

Definition keepalive (s : Server) (sched : list selected) : list event * bool :=
  keepalive_from s 0 sched.

(** ** Vocabulary of the statements *)

(** The characters of lowercase hexadecimal: [0-9] and [a-f]. *)
Definition lower_hex_char (c : ascii) : bool :=
  let v := byte_val c in
  ((48 <=? v) && (v <=? 57)) || ((97 <=? v) && (v <=? 102)).

Fixpoint lower_hex (s : string) : bool :=
  match s with
  | EmptyString => true
  | String c s' => lower_hex_char c && lower_hex s'
  end.

(** The two methods [ServeHTTP] lets through. *)
Definition allowed (m : string) : bool :=
  String.eqb m http.MethodGet || String.eqb m http.MethodPost.

(** The entry [ServeHTTP] logs first when the server is verbose. *)
Definition gate_log (s : Server) (r : http.Request) : list event :=
  if Verbose (cfg s)
  then [Logf "%s -> %s %s"
          [Str (http.RemoteAddr r); Str (http.Method r); Url (http.URL r)]]
  else [].

(** The invariant of a constructed request context: user, client and
    version are set, and either the password is, or both token and salt
    are, but not both. *)
Definition context_invariant (rctx : requestContext) : Prop :=
  User rctx <> "" /\ Client rctx <> "" /\ Version rctx <> "" /\
  ((Password rctx <> "" /\ ~ (Token rctx <> "" /\ Salt rctx <> "")) \/
   (~ Password rctx <> "" /\ (Token rctx <> "" /\ Salt rctx <> ""))).

(** One pass of the keepalive loop before its [select]: the [n]-th ping
    and, when it fails, the log entry. *)
Definition iteration (s : Server) (n : nat) : list event :=
  Ping (db s n) ::
  match db s n with
  | Some e => [Logf "failed to send keepalive message: %v" [Err e]]
  | None => []
  end.

(** The ticks received before the first cancellation. *)
Fixpoint leading_ticks (sched : list selected) : nat :=
  match sched with
  | tickC :: rest => S (leading_ticks rest)
  | _ => O
  end.

Definition is_done (c : selected) : bool :=
  match c with ctxDone => true | tickC => false end.

Definition is_ping (e : event) : bool :=
  match e with Ping _ => true | _ => false end.

Definition is_tick (e : event) : bool :=
  match e with Recv tickC => true | _ => false end.

Definition count (f : event -> bool) (tr : list event) : nat :=
  List.length (List.filter f tr).

(** ** Sample values *)

Definition sample_cfg : Config :=
  {| SubsonicUser := "joe"; SubsonicPassword := "sesame";
     MusicDirectory := "/music"; Verbose := true; Keepalive := 1000000000 |}.

Definition sample_server : Server :=
  {| db := fun n => if Nat.even n then Some "EOF" else None;
     cfg := sample_cfg;
     mux := fun _ w => http.Write (http.Text "ok") w |}.

Definition request (m : string) (q : url.Values) (b : string) : http.Request :=
  {| http.Method := m;
     http.URL := {| url.Path := "/rest/ping.view"; url.Query := q |};
     http.RemoteAddr := "192.0.2.1:4000";
     http.Body := b |}.

Definition query (l : list (string * string)) : url.Values :=
  list_to_map (map (fun kv => (fst kv, [snd kv])) l).

(** ** Construction and shutdown *)

Abbreviation Handler := (http.Request -> Writer -> Writer).

(** The route handlers [s.getLicense], [s.getIndexes], ... are methods of
    [Server] defined outside [server.go]; they are taken as given. *)
Record handlers : Type := {
  getLicense : Handler;
  getIndexes : Handler;
  getMusicDirectory : Handler;
  getMusicFolders : Handler;
  ping : Handler;
  stream : Handler
}.

(** [http.ServeMux], as far as [newServer] uses it: a table from patterns
    to handlers. *)
Abbreviation ServeMux := (gmap string Handler).

(** [http.NewServeMux()] *)
Definition NewServeMux : ServeMux := ∅.

(** [mux.HandleFunc(pattern, handler)] panics ([None]) on an empty pattern
    and on a pattern that is already registered. *)
Definition HandleFunc (pattern : string) (h : Handler) (m : ServeMux)
  : option ServeMux :=
  if String.eqb pattern "" then None
  else match m !! pattern with
       | Some _ => None
       | None => Some (<[pattern := h]> m)
       end.

(** [mux.ServeHTTP(w, r)].  The patterns [newServer] registers are plain
    paths: such a pattern matches the requests whose path is equal to it.
    What the mux answers to a path that matches no pattern (not found, or
    a redirect to the cleaned path) is [unmatched]. *)
Definition ServeMux_ServeHTTP (m : ServeMux) (unmatched : Handler) : Handler :=
  fun r wr =>
    match m !! url.Path (http.URL r) with
    | Some h => h r wr
    | None => unmatched r wr
    end.

(** Where the keepalive goroutine stands: not started, at the top of the
    loop with [n] pings sent, blocked in [select] after ping number [n],
    or returned. *)
Inductive task_state : Type :=
| NotStarted
| AtPing (n : nat)
| AtSelect (n : nat)
| Exited.

(** Where the caller of [Close] stands: not called, past [s.cancel()] and
    in [s.wg.Wait()], or returned. *)
Inductive close_state : Type :=
| NotCalled
| Waiting
| Returned.

(** The server's goroutines and what they share: [done] is the state of
    [ctx] (cancelled or not), [counter] the counter of the wait group
    [s.wg], [events] the trace of the keepalive task. *)
Record system : Type := {
  task : task_state;
  closer : close_state;
  done : bool;
  counter : Z;
  events : list event
}.

(** The state [newServer] leaves: [if cfg.Keepalive > 0 { s.wg.Add(1);
    go s.keepalive(ctx) }]. *)
Definition boot (c : Config) : system :=
  if Keepalive c >? 0
  then {| task := AtPing 0; closer := NotCalled; done := false;
          counter := 1; events := [] |}
  else {| task := NotStarted; closer := NotCalled; done := false;
          counter := 0; events := [] |}.

(** [newServer] is the internal constructor for [Server]: it sets up the
    routes and starts the keepalive task.  The result is [None] when a
    registration panics. *)
Definition newServer (h : handlers) (unmatched : Handler)
    (database : nat -> option string) (c : Config) : option (Server * system) :=
  m ← HandleFunc "/rest/getLicense.view" (getLicense h) NewServeMux;
  m ← HandleFunc "/rest/getIndexes.view" (getIndexes h) m;
  m ← HandleFunc "/rest/getMusicDirectory.view" (getMusicDirectory h) m;
  m ← HandleFunc "/rest/getMusicFolders.view" (getMusicFolders h) m;
  m ← HandleFunc "/rest/ping.view" (ping h) m;
  m ← HandleFunc "/rest/stream.view" (stream h) m;
  Some ({| db := database; cfg := c; mux := ServeMux_ServeHTTP m unmatched |},
        boot c).

(** [&Config{}] *)
Definition zero_config : Config :=
  {| SubsonicUser := ""; SubsonicPassword := ""; MusicDirectory := "";
     Verbose := false; Keepalive := 0 |}.

(** [NewServer] creates a new Server using the input MPD client and
    Config; a nil Config ([None]) stands for the zero Config. *)
Definition NewServer (h : handlers) (unmatched : Handler)
    (c : nat -> option string) (config : option Config)
  : option (Server * system) :=
  newServer h unmatched c
    (match config with Some x => x | None => zero_config end).

(** The steps of the two goroutines.  The task: one pass of the loop up to
    its [select] ([ActPing]); the [select] receiving a tick ([ActTick]) or
    the cancellation ([ActDone], which needs a cancelled [ctx] and runs
    the deferred [s.wg.Done()]).  The caller of [Close]: [s.cancel()]
    ([ActCancel]) and the return of [s.wg.Wait()] ([ActWait], which needs
    a zero counter). *)
Inductive action : Type :=
| ActPing
| ActTick
| ActDone
| ActCancel
| ActWait.

(** One step; [None] when the action cannot happen in the state. *)
Definition step (s : Server) (a : action) (st : system) : option system :=
  match a, task st, closer st with
  | ActPing, AtPing n, _ =>
      Some {| task := AtSelect n; closer := closer st; done := done st;
              counter := counter st;
              events := (events st ++ iteration s n)%list |}
  | ActTick, AtSelect n, _ =>
      Some {| task := AtPing (S n); closer := closer st; done := done st;
              counter := counter st;
              events := (events st ++ [Recv tickC])%list |}
  | ActDone, AtSelect n, _ =>
      if done st
      then Some {| task := Exited; closer := closer st; done := done st;
                   counter := counter st - 1;
                   events := (events st ++ [Recv ctxDone; WgDone])%list |}
      else None
  | ActCancel, _, NotCalled =>
      Some {| task := task st; closer := Waiting; done := true;
              counter := counter st; events := events st |}
  | ActWait, _, Waiting =>
      if counter st =? 0
      then Some {| task := task st; closer := Returned; done := done st;
                   counter := counter st; events := events st |}
      else None
  | _, _, _ => None
  end.

Fixpoint run (s : Server) (l : list action) (st : system) : option system :=
  match l with
  | [] => Some st
  | a :: l' =>
      match step s a st with
      | Some st' => run s l' st'
      | None => None
      end
  end.

(** What the task's [select] statements receive along a run. *)
Fixpoint selects (l : list action) : list selected :=
  match l with
  | [] => []
  | ActTick :: l' => tickC :: selects l'
  | ActDone :: l' => ctxDone :: selects l'
  | _ :: l' => selects l'
  end.

(** What is left of the task's trace from a state on, when its [select]
    statements are to receive [sched]. *)
Definition rest_trace (s : Server) (t : task_state) (sched : list selected)
  : list event :=
  match t with
  | AtPing n => fst (keepalive_from s n sched)
  | AtSelect n =>
      match sched with
      | [] => []
      | ctxDone :: _ => [Recv ctxDone; WgDone]
      | tickC :: rest => Recv tickC :: fst (keepalive_from s (S n) rest)
      end
  | NotStarted | Exited => []
  end.

Definition running (t : task_state) : bool :=
  match t with AtPing _ | AtSelect _ => true | NotStarted | Exited => false end.

(** What holds of the goroutines in every state a server built with
    Config [c] can reach. *)
Definition lifecycle_inv (c : Config) (st : system) : Prop :=
  counter st = (if running (task st) then 1 else 0) /\
  (done st = true <-> closer st <> NotCalled) /\
  (task st = Exited -> done st = true) /\
  (closer st = Returned -> running (task st) = false) /\
  (task st = NotStarted <-> Keepalive c <= 0).




(** ** More vocabulary *)

Definition is_logf (e : event) : bool :=
  match e with Logf _ _ => true | _ => false end.

Definition is_mux (e : event) : bool :=
  match e with Call_mux _ => true | _ => false end.

Definition is_wgdone (e : event) : bool :=
  match e with WgDone => true | _ => false end.

Definition is_failure (res : option string) : bool :=
  match res with Some _ => true | None => false end.

Definition is_hex_digit (c : ascii) : bool :=
  match hex.fromHexChar c with Some _ => true | None => false end.

(** Does the string start with two hexadecimal digits? *)
Definition two_hex_digits (s : string) : bool :=
  match s with
  | String a (String b _) => is_hex_digit a && is_hex_digit b
  | _ => false
  end.

(** The six parameters the parser reads. *)
Definition credential_keys : list string := ["u"; "c"; "v"; "p"; "t"; "s"].

(** * Properties *)

(** ** crypto/md5 test vectors *)

Example md5_empty : hex.EncodeToString (md5.Sum "") = "d41d8cd98f00b204e9800998ecf8427e".
Proof. vm_compute. reflexivity. Qed.

Example md5_abc : hex.EncodeToString (md5.Sum "abc") = "900150983cd24fb0d6963f7d28e17f72".
Proof. vm_compute. reflexivity. Qed.

Example md5_two_blocks :
  hex.EncodeToString
    (md5.Sum "aaaaaaaaaaaaaaaaaaaaaaaaaaaaaaaaaaaaaaaaaaaaaaaaaaaaaaaaaaaaaaaaaaaaaa")
  = "0f5c6c4e740bfcc08c3c26ccb2673d46".
Proof. vm_compute. reflexivity. Qed.

Example md5_sesame :
  hex.EncodeToString (md5.Sum ("sesame" ++ "c19b2d")) = "26719a1196d2a940705a59634eb18eab".
Proof. vm_compute. reflexivity. Qed.


(** ** Strings and hexadecimal *)

Lemma eqb_empty_false (x : string) : x <> "" -> String.eqb x "" = false.
Proof. intros H. now apply String.eqb_neq. Qed.

Lemma hexdigit_lower (n : Z) : lower_hex_char (hex.hexdigit n) = true.
Proof.
  unfold hex.hexdigit. generalize (Z.to_nat n). intros k.
  do 16 (destruct k as [|k]; [reflexivity|]).
  reflexivity.
Qed.

Lemma EncodeToString_lower (src : list Z) : lower_hex (hex.EncodeToString src) = true.
Proof.
  induction src as [|v rest IH]; [reflexivity|].
  cbn [hex.EncodeToString lower_hex].
  now rewrite !hexdigit_lower, IH.
Qed.

(** ** decodePassword *)

Lemma decodePassword_plain (p : string) :
  strings.HasPrefix p prefix = false -> decodePassword p = p.
Proof. unfold decodePassword. now intros ->. Qed.

Lemma decodePassword_encoded (p : string) :
  strings.HasPrefix p prefix = true ->
  decodePassword p = fst (hex.DecodeString (strings.TrimPrefix p prefix)).
Proof.
  unfold decodePassword. intros ->. cbn [negb].
  now destruct (hex.DecodeString _).
Qed.

Example decodePassword_hello_encoded : decodePassword "enc:68656c6c6f" = "hello".
Proof. reflexivity. Qed.

Example decodePassword_hello_plain : decodePassword "hello" = "hello".
Proof. reflexivity. Qed.

Example decodePassword_zz : decodePassword "enc:zz" = "".
Proof. reflexivity. Qed.

(** C2 (the code departs from it): the remainder of ["enc:68zz"] is not
    valid hexadecimal, yet [decodePassword] does not return the empty
    string: [hex.DecodeString] hands back the byte decoded before the
    error, and [decodePassword] drops the error and keeps that byte. *)
Theorem decodePassword_invalid_hex_nonempty :
  strings.HasPrefix "enc:68zz" prefix = true /\
  hex.DecodeString (strings.TrimPrefix "enc:68zz" prefix)
    = ("h", Some (hex.InvalidByteError "z")) /\
  ~ hex.valid (strings.TrimPrefix "enc:68zz" prefix) /\
  decodePassword "enc:68zz" = "h" /\
  decodePassword "enc:68zz" <> "".
Proof.
  repeat split; try reflexivity; intros H; discriminate H.
Qed.

(** ** parseRequestContext *)

Section Parse.

Variable r : http.Request.

Let q : url.Values := url.Query (http.URL r).

(** An absent key reads as the empty string. *)
Lemma Get_absent (key : string) : q !! key = None -> url.Get q key = "".
Proof. unfold url.Get. now intros ->. Qed.

Lemma parse_missing_mandatory :
  url.Get q "u" = "" \/ url.Get q "c" = "" \/ url.Get q "v" = "" ->
  parseRequestContext r = None.
Proof.
  unfold parseRequestContext. fold q. intros H.
  destruct (String.eqb_spec (url.Get q "u") ""); [reflexivity|].
  destruct (String.eqb_spec (url.Get q "c") ""); [reflexivity|].
  destruct (String.eqb_spec (url.Get q "v") ""); [reflexivity|].
  tauto.
Qed.

Lemma parse_password :
  url.Get q "u" <> "" -> url.Get q "c" <> "" -> url.Get q "v" <> "" ->
  decodePassword (url.Get q "p") <> "" ->
  parseRequestContext r =
    Some {| User := url.Get q "u"; Password := decodePassword (url.Get q "p");
            Token := ""; Salt := ""; Client := url.Get q "c";
            Version := url.Get q "v"; authMethod_ := authMethodPassword |}.
Proof.
  intros Hu Hc Hv Hp. unfold parseRequestContext. fold q.
  now rewrite !eqb_empty_false by assumption.
Qed.

Lemma parse_token_missing :
  decodePassword (url.Get q "p") = "" ->
  url.Get q "t" = "" \/ url.Get q "s" = "" ->
  parseRequestContext r = None.
Proof.
  intros Hp H. unfold parseRequestContext. fold q.
  destruct (String.eqb_spec (url.Get q "u") ""); [reflexivity|].
  destruct (String.eqb_spec (url.Get q "c") ""); [reflexivity|].
  destruct (String.eqb_spec (url.Get q "v") ""); [reflexivity|].
  rewrite Hp. cbn [String.eqb negb].
  destruct (String.eqb_spec (url.Get q "t") ""); [reflexivity|].
  destruct (String.eqb_spec (url.Get q "s") ""); [reflexivity|].
  tauto.
Qed.

Lemma parse_token :
  url.Get q "u" <> "" -> url.Get q "c" <> "" -> url.Get q "v" <> "" ->
  decodePassword (url.Get q "p") = "" ->
  url.Get q "t" <> "" -> url.Get q "s" <> "" ->
  parseRequestContext r =
    Some {| User := url.Get q "u"; Password := "";
            Token := url.Get q "t"; Salt := url.Get q "s";
            Client := url.Get q "c"; Version := url.Get q "v";
            authMethod_ := authMethodTokenSalt |}.
Proof.
  intros Hu Hc Hv Hp Ht Hs. unfold parseRequestContext. fold q.
  rewrite Hp. cbn [String.eqb negb].
  now rewrite !eqb_empty_false by assumption.
Qed.

(** Every successful parse is one of the two shapes above. *)
Lemma parse_some_inv (rctx : requestContext) :
  parseRequestContext r = Some rctx ->
  url.Get q "u" <> "" /\ url.Get q "c" <> "" /\ url.Get q "v" <> "" /\
  User rctx = url.Get q "u" /\ Client rctx = url.Get q "c" /\
  Version rctx = url.Get q "v" /\
  ((authMethod_ rctx = authMethodPassword /\
    Password rctx = decodePassword (url.Get q "p") /\ Password rctx <> "" /\
    Token rctx = "" /\ Salt rctx = "") \/
   (authMethod_ rctx = authMethodTokenSalt /\
    decodePassword (url.Get q "p") = "" /\ Password rctx = "" /\
    Token rctx = url.Get q "t" /\ Token rctx <> "" /\
    Salt rctx = url.Get q "s" /\ Salt rctx <> "")).
Proof.
  unfold parseRequestContext. fold q.
  destruct (String.eqb_spec (url.Get q "u") "") as [|Hu]; [discriminate|].
  destruct (String.eqb_spec (url.Get q "c") "") as [|Hc]; [discriminate|].
  destruct (String.eqb_spec (url.Get q "v") "") as [|Hv]; [discriminate|].
  destruct (String.eqb_spec (decodePassword (url.Get q "p")) "") as [Hp|Hp];
    cbn [negb].
  - destruct (String.eqb_spec (url.Get q "t") "") as [|Ht]; [discriminate|].
    destruct (String.eqb_spec (url.Get q "s") "") as [|Hs]; [discriminate|].
    intros [= <-]. cbn. tauto.
  - intros [= <-]. cbn. tauto.
Qed.

End Parse.

(** C4: when [u], [c] and [v] are non-empty and the decoded [p] is
    non-empty, parsing succeeds with a Password-mode context whose password
    is the decoded [p]; [t] and [s] play no part, whatever they hold, and
    the context carries neither token nor salt. *)
Theorem parse_password_precedence (r : http.Request) :
  url.Get (url.Query (http.URL r)) "u" <> "" ->
  url.Get (url.Query (http.URL r)) "c" <> "" ->
  url.Get (url.Query (http.URL r)) "v" <> "" ->
  decodePassword (url.Get (url.Query (http.URL r)) "p") <> "" ->
  exists rctx,
    parseRequestContext r = Some rctx /\
    authMethod_ rctx = authMethodPassword /\
    Password rctx = decodePassword (url.Get (url.Query (http.URL r)) "p") /\
    User rctx = url.Get (url.Query (http.URL r)) "u" /\
    Client rctx = url.Get (url.Query (http.URL r)) "c" /\
    Version rctx = url.Get (url.Query (http.URL r)) "v" /\
    Token rctx = "" /\ Salt rctx = "".
Proof.
  intros Hu Hc Hv Hp. eexists. split.
  - apply parse_password; assumption.
  - cbn. tauto.
Qed.

(** A request that carries an encoded password together with a token and
    a salt is parsed in Password mode. *)
Lemma parse_password_precedence_witness :
  exists rctx,
    parseRequestContext
      (request "GET"
         (query [("u", "joe"); ("c", "app"); ("v", "1.14.0");
                 ("p", "enc:736573616d65"); ("t", "26719a"); ("s", "c19b2d")])
         "") = Some rctx /\
    authMethod_ rctx = authMethodPassword /\
    Password rctx = "sesame".
Proof.
  destruct (parse_password_precedence
              (request "GET"
                 (query [("u", "joe"); ("c", "app"); ("v", "1.14.0");
                         ("p", "enc:736573616d65"); ("t", "26719a");
                         ("s", "c19b2d")])
                 ""))
    as (rctx & Hparse & Hm & Hp & _);
    [vm_compute; discriminate ..|].
  exists rctx. split; [exact Hparse|]. split; [exact Hm|].
  rewrite Hp. vm_compute. reflexivity.
Defined.

(** C5: parsing fails when one of [u], [c], [v] is empty or absent; with
    those present and an empty decoded password it fails when [t] or [s]
    is empty, and otherwise succeeds with a TokenSalt-mode context that
    carries that token and that salt. *)
Theorem parse_token_salt (r : http.Request) :
  (url.Get (url.Query (http.URL r)) "u" = "" \/
   url.Get (url.Query (http.URL r)) "c" = "" \/
   url.Get (url.Query (http.URL r)) "v" = "" ->
   parseRequestContext r = None) /\
  (url.Get (url.Query (http.URL r)) "u" <> "" ->
   url.Get (url.Query (http.URL r)) "c" <> "" ->
   url.Get (url.Query (http.URL r)) "v" <> "" ->
   decodePassword (url.Get (url.Query (http.URL r)) "p") = "" ->
   (url.Get (url.Query (http.URL r)) "t" = "" \/
    url.Get (url.Query (http.URL r)) "s" = "" ->
    parseRequestContext r = None) /\
   (url.Get (url.Query (http.URL r)) "t" <> "" ->
    url.Get (url.Query (http.URL r)) "s" <> "" ->
    exists rctx,
      parseRequestContext r = Some rctx /\
      authMethod_ rctx = authMethodTokenSalt /\
      Token rctx = url.Get (url.Query (http.URL r)) "t" /\
      Salt rctx = url.Get (url.Query (http.URL r)) "s" /\
      User rctx = url.Get (url.Query (http.URL r)) "u" /\
      Client rctx = url.Get (url.Query (http.URL r)) "c" /\
      Version rctx = url.Get (url.Query (http.URL r)) "v" /\
      Password rctx = "")).
Proof.
  split; [apply parse_missing_mandatory|].
  intros Hu Hc Hv Hp. split.
  - now apply parse_token_missing.
  - intros Ht Hs. eexists. split.
    + apply parse_token; assumption.
    + cbn. tauto.
Qed.

(** The three cases at sample requests: no client name; a token without
    salt; a token with its salt. *)
Lemma parse_token_salt_witness :
  parseRequestContext
    (request "GET" (query [("u", "joe"); ("v", "1.14.0"); ("p", "sesame")]) "")
    = None /\
  parseRequestContext
    (request "GET"
       (query [("u", "joe"); ("c", "app"); ("v", "1.14.0"); ("t", "26719a")]) "")
    = None /\
  exists rctx,
    parseRequestContext
      (request "GET"
         (query [("u", "joe"); ("c", "app"); ("v", "1.14.0"); ("p", "enc:zz");
                 ("t", "26719a"); ("s", "c19b2d")]) "")
      = Some rctx /\
    authMethod_ rctx = authMethodTokenSalt /\
    Token rctx = "26719a" /\ Salt rctx = "c19b2d".
Proof.
  split; [|split].
  - apply (proj1 (parse_token_salt _)). right. left.
    apply Get_absent. vm_compute. reflexivity.
  - apply (proj2 (parse_token_salt _)); try (vm_compute; discriminate).
    + vm_compute. reflexivity.
    + right. vm_compute. reflexivity.
  - destruct (proj2 (parse_token_salt
                (request "GET"
                   (query [("u", "joe"); ("c", "app"); ("v", "1.14.0");
                           ("p", "enc:zz"); ("t", "26719a"); ("s", "c19b2d")])
                   ""))) as [_ H];
      [vm_compute; discriminate ..|vm_compute; reflexivity|].
    destruct H as (rctx & Hparse & Hm & Ht & Hs & _);
      [vm_compute; discriminate ..|].
    exists rctx. repeat split; [exact Hparse|exact Hm|..].
    + rewrite Ht. vm_compute. reflexivity.
    + rewrite Hs. vm_compute. reflexivity.
Defined.

(** C6: a context returned by a successful parse has user, client and
    version set, and exactly one of: a non-empty password; a non-empty token
    together with a non-empty salt. *)
Theorem parse_context_invariant (r : http.Request) (rctx : requestContext) :
  parseRequestContext r = Some rctx -> context_invariant rctx.
Proof.
  intros H. apply parse_some_inv in H.
  destruct H as (Hu & Hc & Hv & Eu & Ec & Ev & Hmode).
  unfold context_invariant. rewrite Eu, Ec, Ev.
  repeat (split; [assumption|]).
  destruct Hmode as [(_ & _ & Hp & Et & _) | (_ & _ & Ep & _ & Ht & _ & Hs)].
  - left. split; [assumption|]. intros [Ht _]. now apply Ht.
  - right. split; [|now split]. intros Hp. now apply Hp.
Qed.

Lemma parse_context_invariant_witness :
  context_invariant
    {| User := "joe"; Password := ""; Token := "26719a"; Salt := "c19b2d";
       Client := "app"; Version := "1.14.0";
       authMethod_ := authMethodTokenSalt |}.
Proof.
  apply (parse_context_invariant
           (request "GET"
              (query [("u", "joe"); ("c", "app"); ("v", "1.14.0");
                      ("t", "26719a"); ("s", "c19b2d")]) "")).
  vm_compute. reflexivity.
Defined.

(** C10: the credentials are read from the URL query string alone.  Two
    requests with the same query parameters are parsed alike, whatever
    their methods and bodies; so a request whose query string lacks [u],
    [c] or [v] fails to parse even when its body supplies them. *)
Theorem parse_reads_url_query_only (r r' : http.Request) :
  url.Query (http.URL r) = url.Query (http.URL r') ->
  parseRequestContext r' = parseRequestContext r /\
  (url.Get (url.Query (http.URL r)) "u" = "" \/
   url.Get (url.Query (http.URL r)) "c" = "" \/
   url.Get (url.Query (http.URL r)) "v" = "" ->
   parseRequestContext r' = None).
Proof.
  intros Hq.
  assert (E : parseRequestContext r' = parseRequestContext r)
    by (unfold parseRequestContext; now rewrite Hq).
  split; [exact E|].
  intros H. rewrite E. now apply parse_missing_mandatory.
Qed.

(** A POST whose form body holds every credential, with an empty query
    string, is parsed like the bare GET: it fails. *)
Lemma parse_reads_url_query_only_witness :
  parseRequestContext
    (request "POST" (query []) "u=joe&p=sesame&c=app&v=1.14.0") = None.
Proof.
  apply (parse_reads_url_query_only
           (request "GET" (query []) "")
           (request "POST" (query []) "u=joe&p=sesame&c=app&v=1.14.0")).
  - reflexivity.
  - left. vm_compute. reflexivity.
Defined.

(** ** authenticate *)

(** C1: [authenticate] accepts exactly when the user names match and, in
    Password mode, the passwords are equal, or, in TokenSalt mode, the token
    is the hexadecimal MD5 checksum of the configured password followed
    by the salt; that encoding is lowercase, and the comparison is on the
    bytes, so it is case-sensitive.  Any other discriminant is rejected. *)
Theorem authenticate_spec (s : Server) (rctx : requestContext) :
  (authenticate s rctx = true <->
   User rctx = SubsonicUser (cfg s) /\
   ((authMethod_ rctx = authMethodPassword /\
     Password rctx = SubsonicPassword (cfg s)) \/
    (authMethod_ rctx = authMethodTokenSalt /\
     Token rctx =
       hex.EncodeToString (md5.Sum (SubsonicPassword (cfg s) ++ Salt rctx))))) /\
  (authMethod_ rctx <> authMethodPassword ->
   authMethod_ rctx <> authMethodTokenSalt ->
   authenticate s rctx = false) /\
  lower_hex
    (hex.EncodeToString (md5.Sum (SubsonicPassword (cfg s) ++ Salt rctx))) = true.
Proof.
  split; [|split].
  - unfold authenticate, authMethodPassword, authMethodTokenSalt.
    destruct (String.eqb_spec (User rctx) (SubsonicUser (cfg s))) as [Hu|Hu];
      cbn [negb].
    2: { split; [discriminate|]. intros [H _]. contradiction. }
    destruct (Z.eqb_spec (authMethod_ rctx) 0) as [Hm|Hm].
    { rewrite String.eqb_eq. split.
      - intros Hp. split; [assumption|]. left. now split.
      - intros [_ [[_ Hp]|[Hm' _]]]; [assumption|lia]. }
    destruct (Z.eqb_spec (authMethod_ rctx) 1) as [Hm'|Hm'].
    { rewrite String.eqb_eq. split.
      - intros Ht. split; [assumption|]. right. now split.
      - intros [_ [[Hm0 _]|[_ Ht]]]; [lia|assumption]. }
    split; [discriminate|]. intros [_ [[H _]|[H _]]]; contradiction.
  - unfold authenticate. intros Hp Ht.
    destruct (negb _); [reflexivity|].
    destruct (Z.eqb_spec (authMethod_ rctx) authMethodPassword); [contradiction|].
    destruct (Z.eqb_spec (authMethod_ rctx) authMethodTokenSalt); [contradiction|].
    reflexivity.
  - apply EncodeToString_lower.
Qed.

(** The token scheme at password ["sesame"] and salt ["c19b2d"]: the exact
    token is accepted, the same token in uppercase is not, and a
    discriminant other than the two known ones is rejected even with the
    right password. *)
Lemma authenticate_spec_witness :
  authenticate sample_server
    {| User := "joe"; Password := ""; Token := "26719a1196d2a940705a59634eb18eab";
       Salt := "c19b2d"; Client := "app"; Version := "1.14.0";
       authMethod_ := authMethodTokenSalt |} = true /\
  authenticate sample_server
    {| User := "joe"; Password := ""; Token := "26719A1196D2A940705A59634EB18EAB";
       Salt := "c19b2d"; Client := "app"; Version := "1.14.0";
       authMethod_ := authMethodTokenSalt |} <> true /\
  authenticate sample_server
    {| User := "joe"; Password := "sesame"; Token := ""; Salt := "";
       Client := "app"; Version := "1.14.0"; authMethod_ := 2 |} = false.
Proof.
  split; [|split].
  - apply (proj1 (authenticate_spec _ _)). split; [reflexivity|].
    right. split; [reflexivity|]. vm_compute. reflexivity.
  - intros H. apply (proj1 (authenticate_spec _ _)) in H.
    destruct H as [_ [[H _]|[_ H]]]; [discriminate H|].
    vm_compute in H. discriminate H.
  - apply (proj1 (proj2 (authenticate_spec _ _))); discriminate.
Defined.

(** ** The response writer *)

Section WriterFacts.

Context {X : Type}.
Implicit Types wr : http.ResponseWriter X.

Lemma Header_Set_lookup (k v : string) wr :
  http.header (http.Header_Set k v wr) !! k = Some [v].
Proof. apply lookup_insert_eq. Qed.

(** The first write on a writer fixes status 200 and sends the headers as
    they stand. *)
Lemma Write_first (c : http.chunk X) wr :
  http.wroteHeader wr = false ->
  http.status (http.Write c wr) = http.StatusOK /\
  http.sent (http.Write c wr) = http.header wr /\
  http.body (http.Write c wr) = (http.body wr ++ [c])%list /\
  http.wroteHeader (http.Write c wr) = true.
Proof.
  intros H. unfold http.Write, http.WriteHeader. rewrite H. cbn. tauto.
Qed.

(** [http.Error] on a writer that has sent nothing: the status is the code
    given, and no header other than the three it touches changes. *)
Lemma Error_first (msg : string) (code : Z) wr :
  http.wroteHeader wr = false ->
  http.status (http.Error msg code wr) = code /\
  http.wroteHeader (http.Error msg code wr) = true /\
  http.sent (http.Error msg code wr) !! "Connection" = http.header wr !! "Connection".
Proof.
  intros H. unfold http.Error, http.Write, http.WriteHeader.
  cbn [http.wroteHeader http.Header_Set http.Header_Del http.status http.sent
       http.header].
  rewrite H.
  cbn [http.wroteHeader http.Header_Set http.Header_Del http.status http.sent
       http.header].
  split; [reflexivity|]. split; [reflexivity|].
  rewrite !lookup_insert_ne by discriminate.
  now rewrite lookup_delete_ne by discriminate.
Qed.

End WriterFacts.

(** ** ServeHTTP, path by path *)

Lemma method_gate (m : string) :
  negb (String.eqb m http.MethodGet) && negb (String.eqb m http.MethodPost)
  = negb (allowed m).
Proof. unfold allowed. now destruct (String.eqb m _), (String.eqb m _). Qed.

Section Serve.

Variables (s : Server) (r : http.Request) (w0 : Writer).

Ltac run_handler :=
  unfold serve, ServeHTTP, gate_log, mux_ServeHTTP, call_parseRequestContext,
    call_authenticate, logf, emit, on_writer, mbind, mret, M_bind, M_ret;
  rewrite method_gate.

Lemma serve_not_allowed :
  allowed (http.Method r) = false ->
  serve s r w0 =
    {| w := http.Error "method not allowed" http.StatusMethodNotAllowed w0;
       trace := gate_log s r |}.
Proof.
  intros Ha. run_handler. rewrite Ha.
  now destruct (Verbose (cfg s)).
Qed.

Lemma serve_missing_parameter :
  allowed (http.Method r) = true ->
  parseRequestContext r = None ->
  serve s r w0 =
    {| w := writeXML errMissingParameter
              (http.Header_Set "Connection" "close" w0);
       trace := (gate_log s r ++ [Call_parseRequestContext r])%list |}.
Proof.
  intros Ha Hp. run_handler. rewrite Ha, Hp.
  now destruct (Verbose (cfg s)).
Qed.

Lemma serve_unauthorized (rctx : requestContext) :
  allowed (http.Method r) = true ->
  parseRequestContext r = Some rctx ->
  authenticate s rctx = false ->
  serve s r w0 =
    {| w := writeXML errUnauthorized (http.Header_Set "Connection" "close" w0);
       trace := (gate_log s r
                 ++ [Call_parseRequestContext r; Call_authenticate rctx])%list |}.
Proof.
  intros Ha Hp Hauth. run_handler. rewrite Ha, Hp, Hauth.
  now destruct (Verbose (cfg s)).
Qed.

Lemma serve_dispatch (rctx : requestContext) :
  allowed (http.Method r) = true ->
  parseRequestContext r = Some rctx ->
  authenticate s rctx = true ->
  serve s r w0 =
    {| w := mux s r (http.Header_Set "Connection" "close" w0);
       trace := (gate_log s r
                 ++ [Call_parseRequestContext r; Call_authenticate rctx;
                     Call_mux r])%list |}.
Proof.
  intros Ha Hp Hauth. run_handler. rewrite Ha, Hp, Hauth.
  now destruct (Verbose (cfg s)).
Qed.

End Serve.

Lemma allowed_false (m : string) :
  m <> http.MethodGet -> m <> http.MethodPost -> allowed m = false.
Proof.
  intros Hg Hp. unfold allowed.
  apply String.eqb_neq in Hg. apply String.eqb_neq in Hp.
  now rewrite Hg, Hp.
Qed.

Lemma gate_log_only_logs (s : Server) (r : http.Request) (e : event) :
  In e (gate_log s r) -> exists format args, e = Logf format args.
Proof.
  unfold gate_log. destruct (Verbose (cfg s)); [|contradiction].
  intros [<-|[]]. eauto.
Qed.

(** C8: a request whose method is neither GET nor POST is answered with
    status 405 by [http.Error] and nothing else happens: the trace holds
    no call of the parser, of the authenticator or of the route table, only
    the verbose log entry if logging is on. *)
Theorem method_not_allowed (s : Server) (r : http.Request) (w0 : Writer) :
  http.Method r <> http.MethodGet ->
  http.Method r <> http.MethodPost ->
  http.wroteHeader w0 = false ->
  w (serve s r w0)
    = http.Error "method not allowed" http.StatusMethodNotAllowed w0 /\
  http.status (w (serve s r w0)) = 405 /\
  trace (serve s r w0) = gate_log s r /\
  (forall e, In e (trace (serve s r w0)) -> exists format args, e = Logf format args).
Proof.
  intros Hg Hp Hw.
  rewrite serve_not_allowed by now apply allowed_false.
  cbn [w trace]. split; [reflexivity|]. split; [|split; [reflexivity|]].
  - now apply (Error_first "method not allowed" http.StatusMethodNotAllowed w0).
  - apply gate_log_only_logs.
Qed.

(** A PUT with valid credentials. *)
Lemma method_not_allowed_witness :
  http.status
    (w (serve sample_server
          (request "PUT"
             (query [("u", "joe"); ("c", "app"); ("v", "1.14.0"); ("p", "sesame")])
             "")
          http.fresh)) = 405.
Proof.
  apply (method_not_allowed sample_server
           (request "PUT"
              (query [("u", "joe"); ("c", "app"); ("v", "1.14.0"); ("p", "sesame")])
              "")
           http.fresh); [discriminate|discriminate|reflexivity].
Defined.

(** C7: for a GET or POST, a failed parse is answered with status 200 and
    the encoded missing-parameter error, a failed authentication with
    status 200 and the encoded unauthorized error; the two bodies differ,
    200 is a 2xx status, and in both cases the trace ends before any call
    of the route table. *)
Theorem rejections_answer_200 (s : Server) (r : http.Request) (w0 : Writer) :
  allowed (http.Method r) = true ->
  http.wroteHeader w0 = false ->
  (parseRequestContext r = None ->
   http.status (w (serve s r w0)) = 200 /\
   http.body (w (serve s r w0))
     = (http.body w0 ++ [http.Encoded errMissingParameter])%list /\
   trace (serve s r w0) = (gate_log s r ++ [Call_parseRequestContext r])%list /\
   forall r', ~ In (Call_mux r') (trace (serve s r w0))) /\
  (forall rctx,
     parseRequestContext r = Some rctx ->
     authenticate s rctx = false ->
     http.status (w (serve s r w0)) = 200 /\
     http.body (w (serve s r w0))
       = (http.body w0 ++ [http.Encoded errUnauthorized])%list /\
     trace (serve s r w0)
       = (gate_log s r
          ++ [Call_parseRequestContext r; Call_authenticate rctx])%list /\
     forall r', ~ In (Call_mux r') (trace (serve s r w0))) /\
  (http.body w0 ++ [http.Encoded errMissingParameter])%list
    <> (http.body w0 ++ [http.Encoded errUnauthorized])%list /\
  200 <= http.StatusOK < 300.
Proof.
  intros Ha Hw.
  assert (Hw' : http.wroteHeader (http.Header_Set "Connection" "close" w0) = false)
    by exact Hw.
  split; [|split; [|split]].
  - intros Hp. rewrite (serve_missing_parameter s r w0 Ha Hp). cbn [w trace].
    unfold writeXML.
    destruct (Write_first (http.Encoded errMissingParameter) _ Hw')
      as (Hs & _ & Hb & _).
    rewrite Hs, Hb. repeat split.
    intros r' Hin. apply in_app_or in Hin as [Hin|[Hin|[]]].
    + apply gate_log_only_logs in Hin as (? & ? & ?). discriminate.
    + discriminate.
  - intros rctx Hp Hauth.
    rewrite (serve_unauthorized s r w0 rctx Ha Hp Hauth). cbn [w trace].
    unfold writeXML.
    destruct (Write_first (http.Encoded errUnauthorized) _ Hw')
      as (Hs & _ & Hb & _).
    rewrite Hs, Hb. repeat split.
    intros r' Hin. apply in_app_or in Hin as [Hin|[Hin|[Hin|[]]]].
    + apply gate_log_only_logs in Hin as (? & ? & ?). discriminate.
    + discriminate.
    + discriminate.
  - intros H. apply app_inv_head in H. discriminate.
  - unfold http.StatusOK. lia.
Qed.

(** A GET without parameters and a GET with a wrong password, on a fresh
    writer. *)
Lemma rejections_answer_200_witness :
  (http.status (w (serve sample_server (request "GET" (query []) "") http.fresh))
     = 200 /\
   http.body (w (serve sample_server (request "GET" (query []) "") http.fresh))
     = [http.Encoded errMissingParameter]) /\
  (http.status
     (w (serve sample_server
           (request "GET"
              (query [("u", "joe"); ("c", "app"); ("v", "1.14.0"); ("p", "wrong")])
              "")
           http.fresh)) = 200 /\
   http.body
     (w (serve sample_server
           (request "GET"
              (query [("u", "joe"); ("c", "app"); ("v", "1.14.0"); ("p", "wrong")])
              "")
           http.fresh)) = [http.Encoded errUnauthorized]).
Proof.
  split.
  - destruct (rejections_answer_200 sample_server
                (request "GET" (query []) "") http.fresh)
      as [H _]; [reflexivity|reflexivity|].
    destruct H as (Hs & Hb & _); [vm_compute; reflexivity|].
    split; [exact Hs|exact Hb].
  - destruct (rejections_answer_200 sample_server
                (request "GET"
                   (query [("u", "joe"); ("c", "app"); ("v", "1.14.0");
                           ("p", "wrong")])
                   "") http.fresh)
      as (_ & H & _); [reflexivity|reflexivity|].
    destruct (H {| User := "joe"; Password := "wrong"; Token := ""; Salt := "";
                   Client := "app"; Version := "1.14.0";
                   authMethod_ := authMethodPassword |})
      as (Hs & Hb & _); [vm_compute; reflexivity|vm_compute; reflexivity|].
    split; [exact Hs|exact Hb].
Defined.

(** C3 as stated does not hold: the response to a PUT is written by
    [http.Error] before the handler sets the header, and goes out with no
    [Connection] header. *)
Lemma connection_close_missing_on_405 :
  http.status
    (w (serve sample_server (request "PUT" (query []) "") http.fresh)) = 405 /\
  http.sent (w (serve sample_server (request "PUT" (query []) "") http.fresh))
    !! "Connection" = None /\
  ~ (forall (s : Server) (r : http.Request),
       http.sent (w (serve s r http.fresh)) !! "Connection" = Some ["close"]).
Proof.
  split; [reflexivity|]. split; [reflexivity|].
  intros H.
  specialize (H sample_server (request "PUT" (query []) "")).
  vm_compute in H. discriminate H.
Qed.

(** C3, amended: on a writer that has sent nothing, every response to a
    GET or POST that [ServeHTTP] writes itself (missing parameter,
    unauthorized) goes out with [Connection: close], and on dispatch the
    route handler receives the writer with that header set and nothing
    sent yet.  For any other method the 405 response carries the
    [Connection] header only as the writer already had it: the handler
    does not set it there. *)
Theorem connection_close_after_method_gate
  (s : Server) (r : http.Request) (w0 : Writer) :
  http.wroteHeader w0 = false ->
  (allowed (http.Method r) = true ->
   (parseRequestContext r = None ->
    http.sent (w (serve s r w0)) !! "Connection" = Some ["close"]) /\
   (forall rctx,
      parseRequestContext r = Some rctx ->
      (authenticate s rctx = false ->
       http.sent (w (serve s r w0)) !! "Connection" = Some ["close"]) /\
      (authenticate s rctx = true ->
       exists w1,
         w (serve s r w0) = mux s r w1 /\
         http.header w1 !! "Connection" = Some ["close"] /\
         http.wroteHeader w1 = false))) /\
  (allowed (http.Method r) = false ->
   http.sent (w (serve s r w0)) !! "Connection" = http.header w0 !! "Connection").
Proof.
  intros Hw.
  assert (Hw' : http.wroteHeader (http.Header_Set "Connection" "close" w0) = false)
    by exact Hw.
  split.
  - intros Ha. split.
    + intros Hp. rewrite (serve_missing_parameter s r w0 Ha Hp). cbn [w].
      unfold writeXML.
      destruct (Write_first (http.Encoded errMissingParameter) _ Hw')
        as (_ & Hsent & _).
      rewrite Hsent. apply Header_Set_lookup.
    + intros rctx Hp. split; intros Hauth.
      * rewrite (serve_unauthorized s r w0 rctx Ha Hp Hauth). cbn [w].
        unfold writeXML.
        destruct (Write_first (http.Encoded errUnauthorized) _ Hw')
          as (_ & Hsent & _).
        rewrite Hsent. apply Header_Set_lookup.
      * rewrite (serve_dispatch s r w0 rctx Ha Hp Hauth). cbn [w].
        eexists. split; [reflexivity|]. split; [apply Header_Set_lookup|exact Hw'].
  - intros Ha. rewrite (serve_not_allowed s r w0 Ha). cbn [w].
    now apply (Error_first "method not allowed" http.StatusMethodNotAllowed w0).
Qed.

(** A GET without parameters is answered with [Connection: close]; a PUT
    is answered without the header. *)
Lemma connection_close_after_method_gate_witness :
  http.sent (w (serve sample_server (request "GET" (query []) "") http.fresh))
    !! "Connection" = Some ["close"] /\
  http.sent (w (serve sample_server (request "PUT" (query []) "") http.fresh))
    !! "Connection" = None.
Proof.
  split.
  - apply (connection_close_after_method_gate sample_server
             (request "GET" (query []) "") http.fresh);
      [reflexivity|reflexivity|vm_compute; reflexivity].
  - rewrite (proj2 (connection_close_after_method_gate sample_server
                      (request "PUT" (query []) "") http.fresh eq_refl))
      by reflexivity.
    reflexivity.
Defined.

(** ** keepalive *)

Lemma keepalive_from_trace (s : Server) (sched : list selected) (n : nat) :
  fst (keepalive_from s n sched) =
    (iteration s n
     ++ flat_map (fun i => Recv tickC :: iteration s i)
          (seq (S n) (leading_ticks sched))
     ++ (if existsb is_done sched then [Recv ctxDone; WgDone] else []))%list.
Proof.
  revert n. induction sched as [|c rest IH]; intros n.
  - cbn. now rewrite app_nil_r.
  - destruct c.
    + reflexivity.
    + cbn [keepalive_from leading_ticks existsb is_done orb seq flat_map].
      specialize (IH (S n)). destruct (keepalive_from s (S n) rest) as [tr b].
      cbn [fst] in *. rewrite IH. unfold iteration.
      rewrite <- !app_assoc. reflexivity.
Qed.

Lemma keepalive_from_returned (s : Server) (sched : list selected) (n : nat) :
  snd (keepalive_from s n sched) = existsb is_done sched.
Proof.
  revert n. induction sched as [|c rest IH]; intros n; [reflexivity|].
  destruct c; [reflexivity|].
  cbn [keepalive_from existsb is_done orb].
  specialize (IH (S n)). now destruct (keepalive_from s (S n) rest).
Qed.

Lemma existsb_is_done (sched : list selected) :
  existsb is_done sched = true <-> In ctxDone sched.
Proof.
  rewrite existsb_exists. split.
  - intros ([] & Hin & Hd); [assumption|discriminate].
  - intros Hin. now exists ctxDone.
Qed.

Lemma count_app (f : event -> bool) (l1 l2 : list event) :
  count f (l1 ++ l2) = (count f l1 + count f l2)%nat.
Proof. unfold count. now rewrite List.filter_app, length_app. Qed.

Lemma count_cons (f : event -> bool) (e : event) (l : list event) :
  count f (e :: l) = ((if f e then 1 else 0) + count f l)%nat.
Proof. unfold count. cbn [List.filter]. now destruct (f e). Qed.

Lemma count_iteration_ping (s : Server) (n : nat) : count is_ping (iteration s n) = 1%nat.
Proof. unfold iteration. now destruct (db s n). Qed.

Lemma count_iteration_tick (s : Server) (n : nat) : count is_tick (iteration s n) = 0%nat.
Proof. unfold iteration. now destruct (db s n). Qed.

Lemma count_rounds (s : Server) (k n : nat) :
  count is_ping (flat_map (fun i => Recv tickC :: iteration s i) (seq n k)) = k /\
  count is_tick (flat_map (fun i => Recv tickC :: iteration s i) (seq n k)) = k.
Proof.
  revert n. induction k as [|k IH]; intros n; [now split|].
  cbn [seq flat_map]. destruct (IH (S n)) as [Hp Ht].
  rewrite !count_app, !count_cons, Hp, Ht, count_iteration_ping,
    count_iteration_tick.
  now split.
Qed.

(** C9: the trace of the keepalive task.  It starts with a ping, before
    anything is received; every tick received is followed by one more pass
    (a ping and, exactly when the ping fails, the log entry of its error);
    so after [k] ticks [k + 1] pings were sent, whatever their results.
    The task returns exactly when the cancellation is received, and then
    releases the wait group; a failed ping never ends it. *)
Theorem keepalive_trace (s : Server) (sched : list selected) :
  fst (keepalive s sched) =
    (iteration s 0
     ++ flat_map (fun i => Recv tickC :: iteration s i)
          (seq 1 (leading_ticks sched))
     ++ (if snd (keepalive s sched) then [Recv ctxDone; WgDone] else []))%list /\
  hd_error (fst (keepalive s sched)) = Some (Ping (db s 0)) /\
  count is_tick (fst (keepalive s sched)) = leading_ticks sched /\
  count is_ping (fst (keepalive s sched)) = S (leading_ticks sched) /\
  (snd (keepalive s sched) = true <-> In ctxDone sched).
Proof.
  unfold keepalive.
  pose proof (keepalive_from_trace s sched 0) as Htr.
  pose proof (keepalive_from_returned s sched 0) as Hret.
  rewrite Hret. split; [exact Htr|]. split; [now rewrite Htr|].
  destruct (count_rounds s (leading_ticks sched) 1) as [Hp Ht].
  rewrite Htr, !count_app, Hp, Ht, count_iteration_ping, count_iteration_tick.
  split; [|split].
  - now destruct (existsb is_done sched).
  - destruct (existsb is_done sched); cbn; lia.
  - apply existsb_is_done.
Qed.

(** Three ticks with every ping failing, then cancellation: four pings,
    four log entries, and the task returns. *)
Example keepalive_all_pings_fail :
  keepalive {| db := fun _ => Some "EOF"; cfg := sample_cfg; mux := fun _ x => x |}
    [tickC; tickC; tickC; ctxDone]
  = ([Ping (Some "EOF"); Logf "failed to send keepalive message: %v" [Err "EOF"];
      Recv tickC;
      Ping (Some "EOF"); Logf "failed to send keepalive message: %v" [Err "EOF"];
      Recv tickC;
      Ping (Some "EOF"); Logf "failed to send keepalive message: %v" [Err "EOF"];
      Recv tickC;
      Ping (Some "EOF"); Logf "failed to send keepalive message: %v" [Err "EOF"];
      Recv ctxDone; WgDone], true).
Proof. reflexivity. Qed.

(** * Further properties of the code *)

(** ** decodePassword and the hexadecimal encoding *)

Lemma hex_pair_roundtrip (a : ascii) :
  match hex.fromHexChar (hex.hexdigit (Z.shiftr (byte_val a) 4)),
        hex.fromHexChar (hex.hexdigit (Z.land (byte_val a) 15)) with
  | Some x, Some y => byte_of (Z.lor (Z.shiftl x 4) y) = a
  | _, _ => False
  end.
Proof.
  destruct a as [b0 b1 b2 b3 b4 b5 b6 b7].
  destruct b0, b1, b2, b3, b4, b5, b6, b7; vm_compute; reflexivity.
Qed.

Lemma DecodeString_EncodeToString (s : string) :
  hex.DecodeString (hex.EncodeToString (bytes_of_string s)) = (s, None).
Proof.
  induction s as [|a s IH]; [reflexivity|].
  change (bytes_of_string (String a s)) with (byte_val a :: bytes_of_string s).
  cbn [hex.EncodeToString hex.DecodeString].
  pose proof (hex_pair_roundtrip a) as H.
  destruct (hex.fromHexChar (hex.hexdigit (Z.shiftr (byte_val a) 4)));
    [|contradiction].
  destruct (hex.fromHexChar (hex.hexdigit (Z.land (byte_val a) 15)));
    [|contradiction].
  now rewrite IH, H.
Qed.

Lemma HasPrefix_app (pre s : string) : strings.HasPrefix (pre ++ s) pre = true.
Proof.
  induction pre as [|c pre IH]; [now destruct s|].
  change (strings.HasPrefix (String c (pre ++ s)) (String c pre) = true).
  cbn [strings.HasPrefix]. now rewrite Ascii.eqb_refl.
Qed.

Lemma drop_app (pre s : string) : strings.drop (String.length pre) (pre ++ s) = s.
Proof. induction pre as [|c pre IH]; [now destruct s|exact IH]. Qed.

Lemma TrimPrefix_app (pre s : string) : strings.TrimPrefix (pre ++ s) pre = s.
Proof. unfold strings.TrimPrefix. now rewrite HasPrefix_app, drop_app. Qed.

(** X1: round trip.  A password sent as the marker followed by the
    hexadecimal encoding of its bytes is decoded to that password, whatever
    bytes it holds. *)
Theorem decodePassword_roundtrip (pw : string) :
  decodePassword (prefix ++ hex.EncodeToString (bytes_of_string pw)) = pw.
Proof.
  rewrite decodePassword_encoded by apply HasPrefix_app.
  now rewrite TrimPrefix_app, DecodeString_EncodeToString.
Qed.

Lemma DecodeString_empty_iff (s : string) :
  fst (hex.DecodeString s) = "" <-> two_hex_digits s = false.
Proof.
  destruct s as [|a [|b s]]; cbn [hex.DecodeString two_hex_digits].
  - now split.
  - destruct (hex.fromHexChar a); now split.
  - unfold is_hex_digit.
    destruct (hex.fromHexChar a); [|now split].
    destruct (hex.fromHexChar b); [|now split].
    destruct (hex.DecodeString s). cbn. split; discriminate.
Qed.

(** X2: when the decoded password is empty, which is what sends the parser
    to the token and salt.  Without the marker: only for the empty string.
    With the marker: exactly when what follows it does not start with two
    hexadecimal digits, so one decodable pair is enough for a non-empty
    password, whatever comes after it. *)
Theorem decodePassword_empty_iff (p : string) :
  decodePassword p = "" <->
  if strings.HasPrefix p prefix
  then two_hex_digits (strings.TrimPrefix p prefix) = false
  else p = "".
Proof.
  destruct (strings.HasPrefix p prefix) eqn:Hpre.
  - rewrite decodePassword_encoded by assumption. apply DecodeString_empty_iff.
  - now rewrite decodePassword_plain by assumption.
Qed.

(** ** parseRequestContext and authenticate together *)

(** X3: the parser looks at the first value of [u], [c], [v], [p], [t]
    and [s] and at nothing else: requests that agree on these parse alike,
    whatever other parameters and repeated values they carry. *)
Theorem parse_first_values_only (r r' : http.Request) :
  (forall key, In key credential_keys ->
     url.Get (url.Query (http.URL r)) key = url.Get (url.Query (http.URL r')) key) ->
  parseRequestContext r = parseRequestContext r'.
Proof.
  intros H. unfold parseRequestContext.
  rewrite !(H "u"), !(H "c"), !(H "v"), !(H "p"), !(H "t"), !(H "s");
    [reflexivity|unfold credential_keys; cbn; tauto..].
Qed.

(** A second value for [u] and a parameter [f] change nothing. *)
Lemma parse_first_values_only_witness :
  parseRequestContext
    (request "GET"
       (list_to_map [("u", ["joe"; "eve"]); ("c", ["app"]); ("v", ["1.14.0"]);
                     ("p", ["sesame"]); ("f", ["json"])]) "")
  = parseRequestContext
      (request "GET"
         (query [("u", "joe"); ("c", "app"); ("v", "1.14.0"); ("p", "sesame")]) "").
Proof.
  apply parse_first_values_only.
  intros key [<-|[<-|[<-|[<-|[<-|[<-|[]]]]]]]; vm_compute; reflexivity.
Defined.

(** X4: parser and authenticator composed.  A parsed request is accepted
    exactly when [u] is the configured user and either the decoded [p] is
    non-empty and is the configured password, or the decoded [p] is empty
    and [t] is the hexadecimal MD5 checksum of the configured password
    followed by [s]. *)
Theorem parse_then_authenticate (s : Server) (r : http.Request)
    (rctx : requestContext) :
  parseRequestContext r = Some rctx ->
  (authenticate s rctx = true <->
   url.Get (url.Query (http.URL r)) "u" = SubsonicUser (cfg s) /\
   ((decodePassword (url.Get (url.Query (http.URL r)) "p") <> "" /\
     decodePassword (url.Get (url.Query (http.URL r)) "p")
       = SubsonicPassword (cfg s)) \/
    (decodePassword (url.Get (url.Query (http.URL r)) "p") = "" /\
     url.Get (url.Query (http.URL r)) "t"
       = hex.EncodeToString
           (md5.Sum (SubsonicPassword (cfg s)
                     ++ url.Get (url.Query (http.URL r)) "s"))))).
Proof.
  intros Hparse. apply parse_some_inv in Hparse.
  destruct Hparse as (_ & _ & _ & Eu & _ & _ & Hmode).
  unfold authenticate. rewrite Eu.
  destruct (String.eqb_spec (url.Get (url.Query (http.URL r)) "u")
              (SubsonicUser (cfg s))) as [Hu|Hu]; cbn [negb].
  2: { split; [discriminate|]. intros [H _]. contradiction. }
  destruct Hmode as [(Em & Ep & Hp & _) | (Em & Ep & _ & Et & _ & Es & _)];
    rewrite Em.
  - cbn [authMethodPassword Z.eqb]. rewrite String.eqb_eq, Ep in *. split.
    + intros H. split; [assumption|]. left. now split.
    + intros [_ [[_ H]|[H _]]]; [assumption|contradiction].
  - cbn [authMethodTokenSalt authMethodPassword Z.eqb Pos.eqb].
    rewrite String.eqb_eq, Et, Es. split.
    + intros H. split; [assumption|]. right. now split.
    + intros [_ [[H _]|[_ H]]]; [contradiction|assumption].
Qed.

Lemma parse_then_authenticate_witness :
  authenticate sample_server
    {| User := "joe"; Password := "sesame"; Token := ""; Salt := "";
       Client := "app"; Version := "1.14.0";
       authMethod_ := authMethodPassword |} = true.
Proof.
  apply (parse_then_authenticate sample_server
           (request "GET"
              (query [("u", "joe"); ("c", "app"); ("v", "1.14.0");
                      ("p", "enc:736573616d65")]) "")).
  - vm_compute. reflexivity.
  - split; [vm_compute; reflexivity|]. left.
    split; [vm_compute; discriminate|vm_compute; reflexivity].
Defined.

(** ** ServeHTTP as a gate *)

Lemma serve_cases (s : Server) (r : http.Request) (w0 : Writer) :
  (allowed (http.Method r) = false /\
   trace (serve s r w0) = gate_log s r) \/
  (allowed (http.Method r) = true /\ parseRequestContext r = None /\
   trace (serve s r w0) = (gate_log s r ++ [Call_parseRequestContext r])%list) \/
  (exists rctx,
     allowed (http.Method r) = true /\ parseRequestContext r = Some rctx /\
     authenticate s rctx = false /\
     trace (serve s r w0)
       = (gate_log s r
          ++ [Call_parseRequestContext r; Call_authenticate rctx])%list) \/
  (exists rctx,
     allowed (http.Method r) = true /\ parseRequestContext r = Some rctx /\
     authenticate s rctx = true /\
     trace (serve s r w0)
       = (gate_log s r
          ++ [Call_parseRequestContext r; Call_authenticate rctx;
              Call_mux r])%list).
Proof.
  destruct (allowed (http.Method r)) eqn:Ha.
  2: { left. now rewrite serve_not_allowed. }
  destruct (parseRequestContext r) as [rctx|] eqn:Hp.
  2: { right. left. now rewrite (serve_missing_parameter s r w0 Ha Hp). }
  destruct (authenticate s rctx) eqn:Hauth.
  - right. right. right. exists rctx.
    now rewrite (serve_dispatch s r w0 rctx Ha Hp Hauth).
  - right. right. left. exists rctx.
    now rewrite (serve_unauthorized s r w0 rctx Ha Hp Hauth).
Qed.

Lemma not_mux_in_gate_log (s : Server) (r r' : http.Request) :
  ~ In (Call_mux r') (gate_log s r).
Proof. intros H. apply gate_log_only_logs in H as (? & ? & ?). discriminate. Qed.

Lemma mux_called_inv (s : Server) (r r' : http.Request) (w0 : Writer) :
  In (Call_mux r') (trace (serve s r w0)) ->
  r' = r /\ allowed (http.Method r) = true /\
  exists rctx, parseRequestContext r = Some rctx /\ authenticate s rctx = true.
Proof.
  intros Hin.
  destruct (serve_cases s r w0)
    as [(_ & E)|[(_ & _ & E)|[(rctx & _ & _ & _ & E)|(rctx & Ha & Hp & Hauth & E)]]];
    rewrite E in Hin.
  - now apply not_mux_in_gate_log in Hin.
  - apply in_app_or in Hin as [Hin|[Hin|[]]];
      [now apply not_mux_in_gate_log in Hin|discriminate].
  - apply in_app_or in Hin as [Hin|[Hin|[Hin|[]]]];
      [now apply not_mux_in_gate_log in Hin|discriminate..].
  - apply in_app_or in Hin as [Hin|[Hin|[Hin|[Hin|[]]]]];
      [now apply not_mux_in_gate_log in Hin|discriminate..|].
    injection Hin as <-. eauto.
Qed.

Lemma count_gate_log (s : Server) (r : http.Request) :
  count is_mux (gate_log s r) = 0%nat /\
  count is_logf (gate_log s r) = (if Verbose (cfg s) then 1 else 0)%nat.
Proof. unfold gate_log. now destruct (Verbose (cfg s)). Qed.

(** X5: the route table is reached only through the whole gate.  The trace
    of [ServeHTTP] holds a call of the mux exactly when the method is GET or
    POST, the request parses and the parsed context authenticates; the mux
    then gets the request as it came in, and is called once. *)
Theorem route_table_reached_iff (s : Server) (r r' : http.Request) (w0 : Writer) :
  (In (Call_mux r') (trace (serve s r w0)) <->
   r' = r /\ allowed (http.Method r) = true /\
   exists rctx, parseRequestContext r = Some rctx /\ authenticate s rctx = true) /\
  (count is_mux (trace (serve s r w0)) <= 1)%nat.
Proof.
  split.
  - split; [apply mux_called_inv|].
    intros (-> & Ha & rctx & Hp & Hauth).
    rewrite (serve_dispatch s r w0 rctx Ha Hp Hauth). cbn [trace].
    apply in_or_app. right. cbn. tauto.
  - destruct (count_gate_log s r) as [Hg _].
    destruct (serve_cases s r w0)
      as [(_ & E)|[(_ & _ & E)|[(rctx & _ & _ & _ & E)|(rctx & _ & _ & _ & E)]]];
      rewrite E, ?count_app, Hg; cbn; lia.
Qed.

(** X6: the verbose entry is the only thing [ServeHTTP] logs: one entry per
    request when [Verbose] is set, whatever becomes of the request (a
    rejected method included), and none otherwise. *)
Theorem one_log_entry_per_request (s : Server) (r : http.Request) (w0 : Writer) :
  count is_logf (trace (serve s r w0))
  = (if Verbose (cfg s) then 1 else 0)%nat.
Proof.
  destruct (count_gate_log s r) as [_ Hg].
  destruct (serve_cases s r w0)
    as [(_ & E)|[(_ & _ & E)|[(rctx & _ & _ & _ & E)|(rctx & _ & _ & _ & E)]]];
    rewrite E, ?count_app, Hg; cbn; lia.
Qed.

Lemma authenticate_user (s : Server) (rctx : requestContext) :
  authenticate s rctx = true -> User rctx = SubsonicUser (cfg s).
Proof.
  unfold authenticate.
  destruct (String.eqb_spec (User rctx) (SubsonicUser (cfg s)));
    [trivial|discriminate].
Qed.

Lemma no_mux_for_empty_user (s : Server) (r r' : http.Request) (w0 : Writer) :
  SubsonicUser (cfg s) = "" ->
  ~ In (Call_mux r') (trace (serve s r w0)).
Proof.
  intros Hcfg Hin.
  apply mux_called_inv in Hin as (_ & _ & rctx & Hp & Hauth).
  apply authenticate_user in Hauth.
  apply parse_some_inv in Hp as (Hu & _ & _ & Eu & _).
  congruence.
Qed.

(** X7: a server whose configured user name is empty serves nobody: the
    parser wants a non-empty [u] and the authenticator wants [u] equal to
    the configured name, so no request reaches the route table. *)
Theorem empty_user_serves_nobody (s : Server) (r r' : http.Request) (w0 : Writer) :
  SubsonicUser (cfg s) = "" ->
  ~ In (Call_mux r') (trace (serve s r w0)).
Proof. apply no_mux_for_empty_user. Qed.

Lemma empty_user_serves_nobody_witness :
  ~ In (Call_mux
          (request "GET"
             (query [("u", "joe"); ("c", "app"); ("v", "1.14.0"); ("p", "x")]) ""))
       (trace
          (serve {| db := fun _ => None; cfg := zero_config; mux := fun _ x => x |}
             (request "GET"
                (query [("u", "joe"); ("c", "app"); ("v", "1.14.0"); ("p", "x")]) "")
             http.fresh)).
Proof.
  apply empty_user_serves_nobody. reflexivity.
Defined.

(** X8: the password wins over the token also when it is wrong.  A GET or
    POST with a non-empty decoded password other than the configured one is
    answered as unauthorized, whatever [t] and [s] it carries: a token
    that would authenticate on its own is not looked at. *)
Theorem wrong_password_beats_token (s : Server) (r : http.Request) (w0 : Writer) :
  allowed (http.Method r) = true ->
  url.Get (url.Query (http.URL r)) "u" <> "" ->
  url.Get (url.Query (http.URL r)) "c" <> "" ->
  url.Get (url.Query (http.URL r)) "v" <> "" ->
  decodePassword (url.Get (url.Query (http.URL r)) "p") <> "" ->
  decodePassword (url.Get (url.Query (http.URL r)) "p") <> SubsonicPassword (cfg s) ->
  w (serve s r w0)
    = writeXML errUnauthorized (http.Header_Set "Connection" "close" w0) /\
  forall r', ~ In (Call_mux r') (trace (serve s r w0)).
Proof.
  intros Ha Hu Hc Hv Hp Hne.
  pose proof (parse_password r Hu Hc Hv Hp) as Hparse.
  match type of Hparse with _ = Some ?c => set (rctx := c) in * end.
  assert (Hauth : authenticate s rctx = false).
  { unfold authenticate. destruct (negb _); [reflexivity|].
    cbn [rctx authMethod_ Password authMethodPassword Z.eqb].
    now apply String.eqb_neq. }
  split.
  - now rewrite (serve_unauthorized s r w0 rctx Ha Hparse Hauth).
  - intros r' Hin. apply mux_called_inv in Hin as (_ & _ & c & Hc' & Hauth').
    congruence.
Qed.

(** The token of this request is the right one for salt ["c19b2d"]. *)
Lemma wrong_password_beats_token_witness :
  w (serve sample_server
       (request "GET"
          (query [("u", "joe"); ("c", "app"); ("v", "1.14.0"); ("p", "wrong");
                  ("t", "26719a1196d2a940705a59634eb18eab"); ("s", "c19b2d")]) "")
       http.fresh)
  = writeXML errUnauthorized (http.Header_Set "Connection" "close" http.fresh).
Proof.
  apply (wrong_password_beats_token sample_server
           (request "GET"
              (query [("u", "joe"); ("c", "app"); ("v", "1.14.0"); ("p", "wrong");
                      ("t", "26719a1196d2a940705a59634eb18eab");
                      ("s", "c19b2d")]) "")
           http.fresh);
    [reflexivity|vm_compute; discriminate..].
Defined.

Lemma EncodeToString_length (src : list Z) :
  String.length (hex.EncodeToString src) = (2 * List.length src)%nat.
Proof.
  induction src as [|v rest IH]; [reflexivity|].
  cbn [hex.EncodeToString String.length List.length]. rewrite IH. lia.
Qed.

Lemma Sum_length (s : string) : List.length (md5.Sum s) = 16%nat.
Proof.
  unfold md5.Sum. cbv zeta.
  destruct (md5.blocks _ _ _) as [a b c d].
  unfold md5.le_bytes. now rewrite !length_app, !length_map, !length_seq.
Qed.

(** X9: a token that authenticates is 32 lowercase hexadecimal characters;
    a token of another length, or with an uppercase digit, is rejected
    without regard to the password. *)
Theorem accepted_token_shape (s : Server) (rctx : requestContext) :
  authMethod_ rctx = authMethodTokenSalt ->
  authenticate s rctx = true ->
  String.length (Token rctx) = 32%nat /\ lower_hex (Token rctx) = true.
Proof.
  intros Hm Hauth. unfold authenticate in Hauth.
  destruct (negb _); [discriminate|].
  rewrite Hm in Hauth. cbn [authMethodTokenSalt authMethodPassword Z.eqb Pos.eqb] in Hauth.
  apply String.eqb_eq in Hauth. rewrite Hauth.
  rewrite EncodeToString_length, Sum_length, EncodeToString_lower. now split.
Qed.

Lemma accepted_token_shape_witness :
  String.length "26719a1196d2a940705a59634eb18eab" = 32%nat /\
  lower_hex "26719a1196d2a940705a59634eb18eab" = true.
Proof.
  apply (accepted_token_shape sample_server
           {| User := "joe"; Password := "";
              Token := "26719a1196d2a940705a59634eb18eab"; Salt := "c19b2d";
              Client := "app"; Version := "1.14.0";
              authMethod_ := authMethodTokenSalt |});
    [reflexivity|vm_compute; reflexivity].
Defined.

(** ** More on keepalive *)



Lemma count_wgdone_rounds (s : Server) (k n : nat) :
  count is_wgdone (flat_map (fun i => Recv tickC :: iteration s i) (seq n k)) = 0%nat.
Proof.
  revert n. induction k as [|k IH]; intros n; [reflexivity|].
  cbn [seq flat_map]. rewrite count_app, count_cons, IH. unfold iteration.
  now destruct (db s n).
Qed.

(** X11: the wait group is released by the task exactly once, as its last
    act, and only by returning: the trace of a task that has not returned
    holds no [WgDone]. *)
Theorem keepalive_releases_wait_group_once (s : Server) (sched : list selected) :
  count is_wgdone (fst (keepalive s sched))
    = (if snd (keepalive s sched) then 1 else 0)%nat /\
  (snd (keepalive s sched) = true ->
   exists tr, fst (keepalive s sched) = (tr ++ [WgDone])%list).
Proof.
  unfold keepalive.
  rewrite keepalive_from_trace, keepalive_from_returned. split.
  - rewrite !count_app, count_wgdone_rounds. unfold iteration.
    destruct (db s 0), (existsb is_done sched); reflexivity.
  - intros ->.
    exists (iteration s 0
            ++ flat_map (fun i => Recv tickC :: iteration s i)
                 (seq 1 (leading_ticks sched)) ++ [Recv ctxDone])%list.
    now rewrite <- !app_assoc.
Qed.

Lemma keepalive_releases_wait_group_once_witness :
  exists tr,
    fst (keepalive sample_server [tickC; ctxDone]) = (tr ++ [WgDone])%list.
Proof.
  apply (keepalive_releases_wait_group_once sample_server [tickC; ctxDone]).
  reflexivity.
Defined.

Lemma count_logf_rounds (s : Server) (k n : nat) :
  count is_logf (flat_map (fun i => Recv tickC :: iteration s i) (seq n k))
  = List.length (List.filter is_failure (map (db s) (seq n k))).
Proof.
  revert n. induction k as [|k IH]; intros n; [reflexivity|].
  cbn [seq flat_map map List.filter]. rewrite count_app, count_cons, IH.
  unfold iteration. now destruct (db s n).
Qed.

(** X12: the task logs one entry for each failed ping and nothing else: the
    number of its log entries is the number of failures among the pings it
    sent. *)
Theorem keepalive_logs_each_failure (s : Server) (sched : list selected) :
  count is_logf (fst (keepalive s sched))
  = List.length
      (List.filter is_failure (map (db s) (seq 0 (S (leading_ticks sched))))).
Proof.
  unfold keepalive. rewrite keepalive_from_trace, !count_app, count_logf_rounds.
  cbn [seq map List.filter]. unfold iteration.
  destruct (db s 0), (existsb is_done sched); cbn; lia.
Qed.

(** ** The keepalive task and Close *)

Lemma run_app (s : Server) (l1 l2 : list action) (st : system) :
  run s (l1 ++ l2) st =
  match run s l1 st with
  | Some st' => run s l2 st'
  | None => None
  end.
Proof.
  revert st. induction l1 as [|a l1 IH]; intros st; [reflexivity|].
  cbn [run app]. destruct (step s a st); [apply IH|reflexivity].
Qed.

Lemma inv_boot (c : Config) : lifecycle_inv c (boot c).
Proof.
  unfold lifecycle_inv, boot.
  destruct (Z.gtb_spec (Keepalive c) 0); cbn;
    repeat split; try discriminate; try congruence; try lia.
Qed.

Lemma inv_step (s : Server) (c : Config) (a : action) (st st' : system) :
  lifecycle_inv c st -> step s a st = Some st' -> lifecycle_inv c st'.
Proof.
  intros (Hc & Hd & He & Hr & Hn) Hstep.
  destruct st as [t cl d k ev]. cbn in *.
  unfold step in Hstep. cbn in Hstep.
  destruct a, t, cl; try discriminate Hstep;
    try (destruct d; try discriminate Hstep);
    try (destruct (Z.eqb_spec k 0); try discriminate Hstep);
    injection Hstep as <-; unfold lifecycle_inv; cbn in *;
    repeat split; intros; try discriminate; try congruence; try lia;
    try tauto;
    try (apply Hn; congruence); try (apply Hd; congruence);
    try (match goal with
         | H : Keepalive c <= 0 |- _ => apply Hn in H; discriminate H
         end).
Qed.

Lemma inv_run (s : Server) (c : Config) (l : list action) (st st' : system) :
  lifecycle_inv c st -> run s l st = Some st' -> lifecycle_inv c st'.
Proof.
  revert st. induction l as [|a l IH]; intros st Hinv Hrun.
  - now injection Hrun as <-.
  - cbn [run] in Hrun. destruct (step s a st) as [st1|] eqn:Hstep; [|discriminate].
    eapply IH; [|exact Hrun]. eapply inv_step; eassumption.
Qed.

Lemma keepalive_from_unfold (s : Server) (n : nat) (sched : list selected) :
  fst (keepalive_from s n sched)
  = (iteration s n ++ rest_trace s (AtSelect n) sched)%list.
Proof.
  destruct sched as [|[] rest]; cbn [keepalive_from rest_trace].
  - cbn [fst]. now rewrite app_nil_r.
  - reflexivity.
  - now destruct (keepalive_from s (S n) rest).
Qed.

Lemma run_events (s : Server) (l : list action) (st st' : system) :
  run s l st = Some st' ->
  (events st' ++ rest_trace s (task st') [])%list
  = (events st ++ rest_trace s (task st) (selects l))%list.
Proof.
  revert st. induction l as [|a l IH]; intros st Hrun.
  - injection Hrun as <-. cbn [selects].
    destruct (task st) as [|n|n|]; reflexivity.
  - cbn [run] in Hrun. destruct (step s a st) as [st1|] eqn:Hstep; [|discriminate].
    rewrite (IH st1 Hrun). clear IH Hrun.
    destruct st as [t cl d k ev]. unfold step in Hstep. cbn in Hstep.
    destruct a, t, cl; try discriminate Hstep;
      try (destruct d; try discriminate Hstep);
      try (destruct (k =? 0); try discriminate Hstep);
      injection Hstep as <-; cbn [events task selects];
      rewrite <- ?app_assoc; try reflexivity;
      try (cbn [rest_trace]; now rewrite keepalive_from_unfold).
Qed.

Lemma run_not_started (s : Server) (l : list action) (st st' : system) :
  task st = NotStarted -> run s l st = Some st' ->
  task st' = NotStarted /\ events st' = events st.
Proof.
  revert st. induction l as [|a l IH]; intros st Ht Hrun.
  - now injection Hrun as <-.
  - cbn [run] in Hrun. destruct (step s a st) as [st1|] eqn:Hstep; [|discriminate].
    destruct st as [t cl d k ev]. cbn in Ht. subst t.
    unfold step in Hstep. cbn in Hstep.
    destruct a, cl; try discriminate Hstep;
      try (destruct (k =? 0); try discriminate Hstep);
      injection Hstep as <-; (eapply IH in Hrun; [exact Hrun|reflexivity]).
Qed.

(** X13: in every state the server's goroutines can reach, the counter of
    the wait group is 1 while the keepalive task runs and 0 otherwise: it
    never goes below zero, and [Wait] cannot return under a running
    task. *)
Theorem wait_group_counts_the_task (s : Server) (l : list action) (st : system) :
  run s l (boot (cfg s)) = Some st ->
  counter st = (if running (task st) then 1 else 0).
Proof.
  intros Hrun.
  apply (inv_run s (cfg s) l _ st (inv_boot (cfg s))) in Hrun as (Hc & _).
  exact Hc.
Qed.

(** After two pings, a tick, [s.cancel()] and the cancellation received:
    the counter is back to zero. *)
Lemma wait_group_counts_the_task_witness :
  exists st,
    run sample_server [ActPing; ActTick; ActPing; ActCancel; ActDone]
      (boot (cfg sample_server)) = Some st /\
    task st = Exited /\ counter st = 0.
Proof.
  eexists. split; [reflexivity|]. split; [reflexivity|].
  exact (wait_group_counts_the_task sample_server
           [ActPing; ActTick; ActPing; ActCancel; ActDone] _ eq_refl).
Defined.

Lemma boot_disabled (c : Config) :
  Keepalive c <= 0 ->
  boot c = {| task := NotStarted; closer := NotCalled; done := false;
              counter := 0; events := [] |}.
Proof. intros H. unfold boot. destruct (Z.gtb_spec (Keepalive c) 0); [lia|reflexivity]. Qed.

Lemma boot_enabled (c : Config) :
  Keepalive c > 0 ->
  boot c = {| task := AtPing 0; closer := NotCalled; done := false;
              counter := 1; events := [] |}.
Proof. intros H. unfold boot. destruct (Z.gtb_spec (Keepalive c) 0); [reflexivity|lia]. Qed.

Lemma selects_cons (a : action) (l : list action) (c : selected) :
  In c (selects l) -> In c (selects (a :: l)).
Proof. destruct a; cbn; tauto. Qed.

Lemma run_exited (s : Server) (l : list action) (st st' : system) :
  run s l st = Some st' -> task st' = Exited ->
  task st = Exited \/ In ctxDone (selects l).
Proof.
  revert st. induction l as [|a l IH]; intros st Hrun Hex.
  - injection Hrun as <-. now left.
  - cbn [run] in Hrun. destruct (step s a st) as [st1|] eqn:Hstep; [|discriminate].
    destruct (IH st1 Hrun Hex) as [H1|H1]; [|right; now apply selects_cons].
    destruct st as [t cl d k ev]. unfold step in Hstep. cbn in Hstep.
    destruct a, t, cl; try discriminate Hstep;
      try (destruct d; try discriminate Hstep);
      try (destruct (k =? 0); try discriminate Hstep);
      injection Hstep as <-; cbn in H1; try discriminate H1;
      first [now left | right; now left].
Qed.

(** X14: [Close] returns only after the keepalive task is over.  When it
    has returned, the counter is zero; a task that was started has received
    the cancellation and exited, and its trace is the trace of [keepalive]
    for what its [select] statements received. *)
Theorem close_returns_after_task_exit (s : Server) (l : list action) (st : system) :
  run s l (boot (cfg s)) = Some st ->
  closer st = Returned ->
  counter st = 0 /\
  (Keepalive (cfg s) <= 0 -> task st = NotStarted /\ events st = []) /\
  (Keepalive (cfg s) > 0 ->
   task st = Exited /\ In ctxDone (selects l) /\
   events st = fst (keepalive s (selects l))).
Proof.
  intros Hrun Hret.
  pose proof (inv_run s (cfg s) l _ st (inv_boot (cfg s)) Hrun)
    as (Hc & _ & _ & Hr & Hn).
  specialize (Hr Hret). rewrite Hr in Hc. split; [exact Hc|]. split.
  - intros Hk. rewrite (boot_disabled _ Hk) in Hrun.
    now apply run_not_started in Hrun.
  - intros Hk.
    assert (Ht : task st = Exited).
    { destruct (task st); try discriminate Hr; [|reflexivity].
      exfalso. assert (Keepalive (cfg s) <= 0) by now apply Hn. lia. }
    split; [exact Ht|].
    rewrite (boot_enabled _ Hk) in Hrun. split.
    + destruct (run_exited s l _ st Hrun Ht) as [H|H]; [discriminate H|exact H].
    + apply run_events in Hrun. rewrite Ht in Hrun.
      cbn [rest_trace events task] in Hrun. now rewrite app_nil_r in Hrun.
Qed.

Lemma close_returns_after_task_exit_witness :
  exists st,
    run sample_server [ActPing; ActCancel; ActDone; ActWait]
      (boot (cfg sample_server)) = Some st /\
    closer st = Returned /\ task st = Exited.
Proof.
  eexists. split; [reflexivity|]. split; [reflexivity|].
  apply (close_returns_after_task_exit sample_server
           [ActPing; ActCancel; ActDone; ActWait] _ eq_refl eq_refl).
  reflexivity.
Defined.

(** X15: nothing but [Close] ends the keepalive task: as long as [Close]
    has not been called, a task that was started is still running, whatever
    its pings returned. *)
Theorem task_runs_until_close (s : Server) (l : list action) (st : system) :
  Keepalive (cfg s) > 0 ->
  run s l (boot (cfg s)) = Some st ->
  closer st = NotCalled ->
  running (task st) = true.
Proof.
  intros Hk Hrun Hcl.
  pose proof (inv_run s (cfg s) l _ st (inv_boot (cfg s)) Hrun)
    as (_ & Hd & He & _ & Hn).
  destruct (task st); try reflexivity.
  - assert (Keepalive (cfg s) <= 0) by now apply Hn. lia.
  - specialize (He eq_refl). apply Hd in He. contradiction.
Qed.

(** The first ping of the sample server fails. *)
Lemma task_runs_until_close_witness :
  exists st,
    run sample_server [ActPing; ActTick; ActPing; ActTick]
      (boot (cfg sample_server)) = Some st /\
    hd_error (events st) = Some (Ping (Some "EOF")) /\
    running (task st) = true.
Proof.
  eexists. split; [reflexivity|]. split; [reflexivity|].
  exact (task_runs_until_close sample_server
           [ActPing; ActTick; ActPing; ActTick] _ eq_refl eq_refl eq_refl).
Defined.

(** X16: with a keepalive interval that is zero or negative no task is
    ever started: no ping is sent in any run, and [Close] returns at
    once. *)
Theorem no_keepalive_when_disabled (s : Server) :
  Keepalive (cfg s) <= 0 ->
  (forall l st, run s l (boot (cfg s)) = Some st ->
                task st = NotStarted /\ events st = []) /\
  exists st, run s [ActCancel; ActWait] (boot (cfg s)) = Some st /\
             closer st = Returned.
Proof.
  intros Hk. rewrite (boot_disabled _ Hk). split.
  - intros l st Hrun. now apply run_not_started in Hrun.
  - eexists. split; reflexivity.
Qed.

Lemma no_keepalive_when_disabled_witness :
  exists st,
    run {| db := fun _ => Some "EOF";
           cfg := {| SubsonicUser := "joe"; SubsonicPassword := "sesame";
                     MusicDirectory := "/music"; Verbose := false;
                     Keepalive := -5 |};
           mux := fun _ x => x |}
      [ActCancel; ActWait]
      (boot {| SubsonicUser := "joe"; SubsonicPassword := "sesame";
               MusicDirectory := "/music"; Verbose := false;
               Keepalive := -5 |}) = Some st /\
    closer st = Returned.
Proof.
  apply (no_keepalive_when_disabled
           {| db := fun _ => Some "EOF";
              cfg := {| SubsonicUser := "joe"; SubsonicPassword := "sesame";
                        MusicDirectory := "/music"; Verbose := false;
                        Keepalive := -5 |};
              mux := fun _ x => x |}).
  cbn. lia.
Defined.

(** X17: [Close] can always finish, and soon: from any reachable state in
    which [Close] waits, the task needs at most one more ping before it
    receives the cancellation, and then [Wait] returns. *)
Theorem close_can_finish (s : Server) (l : list action) (st : system) :
  run s l (boot (cfg s)) = Some st ->
  closer st = Waiting ->
  exists l' st',
    (List.length l' <= 3)%nat /\
    run s l' st = Some st' /\
    closer st' = Returned /\
    (count is_ping (events st') <= count is_ping (events st) + 1)%nat.
Proof.
  intros Hrun Hcl.
  pose proof (inv_run s (cfg s) l _ st (inv_boot (cfg s)) Hrun)
    as (Hc & Hd & _ & _ & _).
  assert (Hdone : done st = true) by (apply Hd; rewrite Hcl; discriminate).
  destruct st as [t cl d k ev]. cbn in *. subst cl d.
  destruct t as [|n|n|]; cbn in Hc; subst k.
  - exists [ActWait]. eexists.
    split; [cbn; lia|]. split; [reflexivity|]. split; [reflexivity|].
    apply Nat.le_add_r.
  - exists [ActPing; ActDone; ActWait]. eexists.
    split; [cbn; lia|]. split; [reflexivity|]. split; [reflexivity|].
    cbn [events]. rewrite !count_app, count_iteration_ping. unfold count. cbn. lia.
  - exists [ActDone; ActWait]. eexists.
    split; [cbn; lia|]. split; [reflexivity|]. split; [reflexivity|].
    cbn [events]. rewrite !count_app. unfold count. cbn. lia.
  - exists [ActWait]. eexists.
    split; [cbn; lia|]. split; [reflexivity|]. split; [reflexivity|].
    apply Nat.le_add_r.
Qed.

Lemma close_can_finish_witness :
  exists l' st',
    (List.length l' <= 3)%nat /\
    run sample_server (([ActPing; ActTick] ++ [ActCancel]) ++ l')
      (boot (cfg sample_server)) = Some st' /\
    closer st' = Returned.
Proof.
  destruct (close_can_finish sample_server [ActPing; ActTick; ActCancel] _
              eq_refl eq_refl) as (l' & st' & Hlen & Hrun & Hret & _).
  exists l', st'. split; [exact Hlen|]. split; [|exact Hret].
  rewrite run_app. exact Hrun.
Defined.

(** X18: in every interleaving with [Close], what the task has done is what
    [keepalive] does for the ticks and the cancellation its [select]
    statements have received; a task at the top of the loop is one ping
    short of it. *)
Theorem task_trace_is_keepalive (s : Server) (l : list action) (st : system) :
  Keepalive (cfg s) > 0 ->
  run s l (boot (cfg s)) = Some st ->
  (events st ++ rest_trace s (task st) [])%list = fst (keepalive s (selects l)).
Proof.
  intros Hk Hrun. rewrite (boot_enabled _ Hk) in Hrun.
  now apply run_events in Hrun.
Qed.

Lemma task_trace_is_keepalive_witness :
  fst (keepalive sample_server [tickC; ctxDone])
  = [Ping (Some "EOF"); Logf "failed to send keepalive message: %v" [Err "EOF"];
     Recv tickC; Ping None; Recv ctxDone; WgDone].
Proof.
  symmetry.
  exact (task_trace_is_keepalive sample_server
           [ActPing; ActTick; ActCancel; ActPing; ActDone; ActWait] _
           eq_refl eq_refl).
Defined.

(** ** newServer and NewServer *)

Lemma HandleFunc_fresh (pattern : string) (h : Handler) (m : ServeMux) :
  pattern <> "" -> m !! pattern = None ->
  HandleFunc pattern h m = Some (<[pattern := h]> m).
Proof.
  intros Hne Hfresh. unfold HandleFunc.
  now rewrite (eqb_empty_false _ Hne), Hfresh.
Qed.

Lemma newServer_eq (h : handlers) (unmatched : Handler)
    (database : nat -> option string) (c : Config) :
  newServer h unmatched database c =
    Some ({| db := database; cfg := c;
             mux := ServeMux_ServeHTTP
                      (<["/rest/stream.view" := stream h]>
                         (<["/rest/ping.view" := ping h]>
                            (<["/rest/getMusicFolders.view" := getMusicFolders h]>
                               (<["/rest/getMusicDirectory.view" := getMusicDirectory h]>
                                  (<["/rest/getIndexes.view" := getIndexes h]>
                                     (<["/rest/getLicense.view" := getLicense h]> ∅))))))
                      unmatched |},
          boot c).
Proof.
  unfold newServer, NewServeMux.
  repeat (rewrite HandleFunc_fresh by (discriminate || by simplify_map_eq);
          match goal with
          | |- context [Some ?x ≫= ?f] => change (Some x ≫= f) with (f x)
          end; cbv beta).
  reflexivity.
Qed.





(** X21: [NewServer] with a nil Config builds a server with the zero
    Config: no keepalive task is started, and since its user name is empty
    no request ever reaches the route table. *)
Theorem NewServer_nil_config (h : handlers) (unmatched : Handler)
    (c : nat -> option string) :
  exists s st,
    NewServer h unmatched c None = Some (s, st) /\
    cfg s = zero_config /\
    task st = NotStarted /\ counter st = 0 /\
    forall r r' w0, ~ In (Call_mux r') (trace (serve s r w0)).
Proof.
  unfold NewServer. rewrite newServer_eq. do 2 eexists.
  split; [reflexivity|]. split; [reflexivity|].
  split; [reflexivity|]. split; [reflexivity|].
  intros r r' w0. now apply no_mux_for_empty_user.
Qed.
